(** * Surface-code circuit generators: a shallow embedding

    The two scripts [logical-qubit-encoder.py] and
    [error-syndrome-stabilizers.py] build circuits for a small surface-code
    patch.  This file embeds their two classes, [SurfaceCodeEncoder] and
    [StabilizerCircuits], and proves properties of the circuits they
    assemble and of the geometric neighbour lookup.

    Modelling choices.
    - Coordinates are Python numbers (ints and floats).  Every finite one is
      a rational, and Python's [==] on numbers is numeric equality, so a
      coordinate is a [Q] compared with [Qeq_bool]; two representations of
      one number ([0] and [0.0], here [0#1] and [0#2]) are equal keys, as
      they are in Python.  A sum [r + dr] with a float [dr] is a float:
      Python converts [r] to the nearest binary64 number and rounds the
      sum to the nearest binary64 number again, ties to even; [float_add]
      does the same.  The [OverflowError] of an integer beyond the float
      range, infinities and NaN are not modelled.
    - [cirq] is an external library.  Its qubits are records of two
      coordinates, its gate constructors are constructors of [Operation],
      and a circuit is the sequence of the operations appended to it, in
      append order; how the library packs operations into moments and what
      it validates is not part of the scripts.
    - A method runs in the monad [Py]: it reads and extends the text
      written to standard output, and either returns a value or raises. *)

From Stdlib Require Import List Bool String ZArith QArith Lqa Lia DecimalString.
Import ListNotations.
Open Scope Q_scope.

(** ** Qubits and coordinates *)

(** [cirq.GridQubit]: a qubit identified by its row and column. *)
Record GridQubit : Type := mkGridQubit { row : Q; col : Q }.

(** [GridQubit.__eq__]: rows and columns are numerically equal. *)
Definition qubit_eqb (a b : GridQubit) : bool :=
  Qeq_bool (row a) (row b) && Qeq_bool (col a) (col b).

(** A coordinate pair [(row, col)], and [==] on two such tuples. *)
Definition Pos : Type := (Q * Q)%type.

Definition pos_eqb (p q : Pos) : bool :=
  Qeq_bool (fst p) (fst q) && Qeq_bool (snd p) (snd q).

(** ** Python floats

    A float is a binary64 number: an integer of at most 53 bits times a
    power of two not below 2^-1074.  [round64 x] is the float nearest to
    the rational [x], the one with the even significand when two are
    equally near. *)

(** The integer nearest to [n / d], for [0 <= n] and [0 < d], the even one
    at a tie. *)
Definition round_half_even (n d : Z) : Z :=
  let q := (n / d)%Z in
  match (2 * (n mod d) ?= d)%Z with
  | Lt => q
  | Gt => (q + 1)%Z
  | Eq => if Z.even q then q else (q + 1)%Z
  end.

(** The integer part of the binary logarithm of [n / d], for [0 < n] and
    [0 < d]. *)
Definition ilog2 (n d : Z) : Z :=
  let l := (Z.log2 n - Z.log2 d)%Z in
  if (if 0 <=? l then d * 2 ^ l <=? n else d <=? n * 2 ^ (- l))%Z
  then l else (l - 1)%Z.

(** The float nearest to [n / d], for [0 < n] and [0 < d]: the quotient is
    rounded at the binary place [e] that leaves 53 significant bits, or
    at 2^-1074 when it is smaller than 2^-1022. *)
Definition round64_pos (n d : Z) : Q :=
  let e := Z.max (ilog2 n d - 52) (-1074) in
  if (0 <=? e)%Z
  then inject_Z (round_half_even n (d * 2 ^ e) * 2 ^ e)
  else round_half_even (n * 2 ^ (- e)) d # Z.to_pos (2 ^ (- e)).

Definition round64 (x : Q) : Q :=
  match Qnum (Qred x) with
  | Z0 => 0
  | Zpos n => round64_pos (Zpos n) (Zpos (Qden (Qred x)))
  | Zneg n => - round64_pos (Zpos n) (Zpos (Qden (Qred x)))
  end.

(** [x + f] for a number [x] and a float [f]: [x] is converted to a float
    and the sum of the two floats is rounded. *)
Definition float_add (x f : Q) : Q := round64 (round64 x + f).

(** ** Python effects: standard output and exceptions *)

Inductive exn : Type :=
| KeyError (key : GridQubit).

Inductive outcome (A : Type) : Type :=
| Return (a : A)
| Raise (e : exn).
Arguments Return {A} a.
Arguments Raise {A} e.

Definition stdout : Type := list string.

Definition Py (A : Type) : Type := stdout -> outcome A * stdout.

Definition ret {A} (a : A) : Py A := fun out => (Return a, out).

Definition raise {A} (e : exn) : Py A := fun out => (Raise e, out).

Definition bind {A B} (m : Py A) (k : A -> Py B) : Py B :=
  fun out =>
    match m out with
    | (Return a, out') => k a out'
    | (Raise e, out') => (Raise e, out')
    end.

Definition print (line : string) : Py unit :=
  fun out => (Return tt, out ++ [line]).

Notation "x <- m ;; k" := (bind m (fun x => k))
  (at level 61, m at next level, right associativity).
Notation "' pat <- m ;; k" := (bind m (fun x => match x with pat => k end))
  (at level 61, pat pattern, m at next level, right associativity).
Notation "m ;; k" := (bind m (fun _ => k))
  (at level 61, right associativity).

(** A [for] loop over [xs] whose body updates the loop-carried value [acc]
    and may raise; the first exception leaves the loop. *)
Fixpoint for_ {X S} (xs : list X) (acc : S) (body : X -> S -> Py S) : Py S :=
  match xs with
  | [] => ret acc
  | x :: xs' => acc' <- body x acc ;; for_ xs' acc' body
  end.

(** [str(n)] for a length. *)
Definition str (n : nat) : string := NilZero.string_of_uint (Nat.to_uint n).

(** ** Dictionaries keyed by qubits

    A Python [dict] keeps its keys in insertion order.  Assigning to a key
    that is already present (an equal qubit) keeps the old key object and
    its place and replaces the value. *)
Module Dict.

Definition t : Type := list (GridQubit * Pos).

Definition empty : t := [].

Fixpoint setitem (d : t) (k : GridQubit) (v : Pos) : t :=
  match d with
  | [] => [(k, v)]
  | (k', v') :: d' =>
      if qubit_eqb k' k then (k', v) :: d'
      else (k', v') :: setitem d' k v
  end.

Fixpoint get (d : t) (k : GridQubit) : option Pos :=
  match d with
  | [] => None
  | (k', v') :: d' => if qubit_eqb k' k then Some v' else get d' k
  end.

(** [d[k]]: raises [KeyError] on an absent key. *)
Definition getitem (d : t) (k : GridQubit) : Py Pos :=
  match get d k with
  | Some v => ret v
  | None => raise (KeyError k)
  end.

Definition items (d : t) : list (GridQubit * Pos) := d.

Definition keys (d : t) : list GridQubit := map fst d.

End Dict.

(** ** Circuits *)

Inductive Operation : Type :=
| H (q : GridQubit)
| CNOT (control target : GridQubit)
| reset (q : GridQubit)
| measure (qubits : list GridQubit) (key : string).

Module Circuit.

Definition t : Type := list Operation.

(** [cirq.Circuit()] *)
Definition new : t := [].

(** [circuit.append(ops)] *)
Definition append (circuit : t) (ops : list Operation) : t := circuit ++ ops.

End Circuit.

(** ** logical-qubit-encoder.py *)
Module SurfaceCodeEncoder.

Record t : Type := mk {
  data_qubits : list GridQubit;
  ancilla_qubits : list GridQubit;
  all_qubits : list GridQubit
}.

Definition __init__ (data_qubits ancilla_qubits : list GridQubit) : Py t :=
  let self := {| data_qubits := data_qubits;
                 ancilla_qubits := ancilla_qubits;
                 all_qubits := data_qubits ++ ancilla_qubits |} in
  print ("[Encoder] Initialized with " ++ str (List.length data_qubits)
         ++ " data qubits and " ++ str (List.length ancilla_qubits)
         ++ " ancilla qubits.")%string ;;
  ret self.

Definition create_logical_zero_circuit (self : t) : Py Circuit.t :=
  let circuit := Circuit.new in
  let circuit := Circuit.append circuit (map reset (data_qubits self)) in
  print "[Encoder] Created circuit for logical |0> state." ;;
  ret circuit.

End SurfaceCodeEncoder.

(** ** error-syndrome-stabilizers.py *)
Module StabilizerCircuits.

Record t : Type := mk {
  data_qubits : list GridQubit;
  ancilla_qubits : list GridQubit;
  qubit_map : Dict.t
}.

Definition __init__ (data_qubits ancilla_qubits : list GridQubit) : Py t :=
  let self := {| data_qubits := data_qubits;
                 ancilla_qubits := ancilla_qubits;
                 qubit_map :=
                   fold_left (fun d q => Dict.setitem d q (row q, col q))
                             (data_qubits ++ ancilla_qubits) Dict.empty |} in
  print ("[Stabilizers] Initialized for a "
         ++ str (List.length data_qubits) ++ " data qubit patch.")%string ;;
  ret self.

Definition _get_neighbors (self : t) (ancilla_qubit : GridQubit)
  : Py (list GridQubit) :=
  '(r, c) <- Dict.getitem (qubit_map self) ancilla_qubit ;;
  let neighbors := [] in
  neighbors <-
    for_ [-0.5; 0.5] neighbors (fun dr neighbors =>
      for_ [-0.5; 0.5] neighbors (fun dc neighbors =>
        let neighbor_pos := (float_add r dr, float_add c dc) in
        for_ (Dict.items (qubit_map self)) neighbors
          (fun '(q, pos) neighbors =>
             if pos_eqb pos neighbor_pos
             then ret (neighbors ++ [q])
             else ret neighbors))) ;;
  ret neighbors.

Definition create_stabilizer_cycle (self : t) : Py Circuit.t :=
  let circuit := Circuit.new in
  let circuit := Circuit.append circuit (map H (ancilla_qubits self)) in
  circuit <-
    for_ (ancilla_qubits self) circuit (fun ancilla circuit =>
      neighbors <- _get_neighbors self ancilla ;;
      ret (Circuit.append circuit
             (map (fun data => CNOT ancilla data) neighbors))) ;;
  let circuit := Circuit.append circuit (map H (ancilla_qubits self)) in
  circuit <-
    for_ (ancilla_qubits self) circuit (fun ancilla circuit =>
      neighbors <- _get_neighbors self ancilla ;;
      ret (Circuit.append circuit
             (map (fun data => CNOT data ancilla) neighbors))) ;;
  let circuit :=
    Circuit.append circuit [measure (ancilla_qubits self) "syndrome"] in
  print "[Stabilizers] Created one full stabilizer measurement cycle circuit." ;;
  ret circuit.

End StabilizerCircuits.

(** ** The example patch of both scripts' [__main__] blocks *)

Definition example_data : list GridQubit :=
  flat_map (fun i => map (fun j => mkGridQubit i j) [0; 1]) [0; 1].

Definition example_ancillas : list GridQubit :=
  [mkGridQubit 0.5 0.5; mkGridQubit 0.5 1.5; mkGridQubit 1.5 0.5].

(** ** Specification vocabulary *)

(** The four diagonal offsets, in the order the two nested loops of
    [_get_neighbors] enumerate them. *)
Definition offsets : list (Q * Q) :=
  [(-0.5, -0.5); (-0.5, 0.5); (0.5, -0.5); (0.5, 0.5)].

(** The qubit [q] sits at the position [p]. *)
Definition sits_at (p : Pos) (q : GridQubit) : bool :=
  pos_eqb (row q, col q) p.

(** The position at offset [off] from the qubit [a], exactly. *)
Definition shifted (a : GridQubit) (off : Q * Q) : Pos :=
  (row a + fst off, col a + snd off).

(** The position the resolver computes for the offset [off] from the
    qubit [a]: the two sums as Python floats. *)
Definition reached (a : GridQubit) (off : Q * Q) : Pos :=
  (float_add (row a) (fst off), float_add (col a) (snd off)).

(** The eight float sums around [a] are exact: each computed position is
    the exact one. *)
Definition sums_exact (a : GridQubit) : bool :=
  forallb (fun off => pos_eqb (reached a off) (shifted a off)) offsets.

(** [q in l], with Python's [==] on qubits. *)
Definition present (l : list GridQubit) (q : GridQubit) : bool :=
  existsb (fun k => qubit_eqb k q) l.

(** [k in d] for a dictionary. *)
Definition mem (d : Dict.t) (k : GridQubit) : bool :=
  match Dict.get d k with Some _ => true | None => false end.

(** The qubits of [l] without repetition, each at the place of its first
    occurrence: the key order of a dictionary filled from [l]. *)
Definition first_occurrences (l : list GridQubit) : list GridQubit :=
  fold_left (fun seen q => if present seen q then seen else seen ++ [q]) l [].

(** The keys of [d] whose stored position equals [p], in key order. *)
Definition matches (d : Dict.t) (p : Pos) : list GridQubit :=
  map fst (filter (fun e => pos_eqb (snd e) p) d).

(** Every entry stores the coordinates of its key. *)
Definition coherent (d : Dict.t) : Prop :=
  Forall (fun e => pos_eqb (snd e) (row (fst e), col (fst e)) = true) d.

(** Two qubits of a sequence have equal coordinates. *)
Fixpoint collides (l : list GridQubit) : bool :=
  match l with
  | [] => false
  | q :: l' => present l' q || collides l'
  end.

(** The value a call returns when started on an empty output, [[]] when
    it raises. *)
Definition returned {A} (m : Py (list A)) : list A :=
  match fst (m []) with
  | Return l => l
  | Raise _ => []
  end.

(** The objects both [__main__] blocks construct. *)
Definition example_stabilizers : StabilizerCircuits.t :=
  {| StabilizerCircuits.data_qubits := example_data;
     StabilizerCircuits.ancilla_qubits := example_ancillas;
     StabilizerCircuits.qubit_map :=
       map (fun q => (q, (row q, col q))) (example_data ++ example_ancillas) |}.

Definition example_encoder : SurfaceCodeEncoder.t :=
  {| SurfaceCodeEncoder.data_qubits := example_data;
     SurfaceCodeEncoder.ancilla_qubits := example_ancillas;
     SurfaceCodeEncoder.all_qubits := example_data ++ example_ancillas |}.

(** How many of the four diagonal positions around [q] hold a qubit of
    [l]. *)
Definition occupied_around (l : list GridQubit) (q : GridQubit) : nat :=
  List.length (filter (fun off => existsb (sits_at (shifted q off)) l) offsets).

(** A patch in which an ancilla sits diagonally next to another ancilla:
    one data qubit at (0,0), ancillas at (0.5,0.5) and (1,1). *)
Definition diagonal_data : list GridQubit := [mkGridQubit 0 0].

Definition diagonal_ancillas : list GridQubit :=
  [mkGridQubit 0.5 0.5; mkGridQubit 1 1].

(** Three data qubits around the ancilla at (0.5,0.5), and a second
    ancilla on its fourth corner. *)
Definition corner_data : list GridQubit :=
  [mkGridQubit 0 0; mkGridQubit 0 1; mkGridQubit 1 0].

Definition corner_ancillas : list GridQubit :=
  [mkGridQubit 0.5 0.5; mkGridQubit 1 1].

(** A layout whose single ancilla has the coordinates of its single data
    qubit. *)
Definition twin_data : list GridQubit := [mkGridQubit 0 0].

Definition twin_ancillas : list GridQubit := [mkGridQubit 0 0].

(** ** Vocabulary for the circuits and the scripts *)

(** The qubit [k] sits on one of the four diagonal positions around [q]. *)
Definition diagonal (q k : GridQubit) : bool :=
  existsb (fun off => sits_at (shifted q off) k) offsets.

(** The distinct qubits of [l] around [q], offset by offset. *)
Definition neighborhood (l : list GridQubit) (q : GridQubit) : list GridQubit :=
  flat_map (fun off => filter (sits_at (shifted q off)) (first_occurrences l))
           offsets.

(** The qubit [k] sits on one of the four positions the resolver computes
    around [q]. *)
Definition reaches (q k : GridQubit) : bool :=
  existsb (fun off => sits_at (reached q off) k) offsets.

(** The distinct qubits of [l] at the positions the resolver computes
    around [q], offset by offset. *)
Definition scan (l : list GridQubit) (q : GridQubit) : list GridQubit :=
  flat_map (fun off => filter (sits_at (reached q off)) (first_occurrences l))
           offsets.

(** What the resolver's loops collect for [q] from the mapping of any
    object, [[]] when [q] has no entry. *)
Definition found (self : StabilizerCircuits.t) (q : GridQubit) : list GridQubit :=
  match Dict.get (StabilizerCircuits.qubit_map self) q with
  | Some (r, c) =>
      flat_map (fun off => matches (StabilizerCircuits.qubit_map self)
                                   (float_add r (fst off), float_add c (snd off)))
               offsets
  | None => []
  end.

(** The first ancilla of an object that its mapping does not register. *)
Definition first_unregistered (self : StabilizerCircuits.t) : option GridQubit :=
  find (fun q => negb (mem (StabilizerCircuits.qubit_map self) q))
       (StabilizerCircuits.ancilla_qubits self).

(** The qubits an operation acts on. *)
Definition qubits_of (op : Operation) : list GridQubit :=
  match op with
  | H q => [q]
  | CNOT control target => [control; target]
  | reset q => [q]
  | measure qubits _ => qubits
  end.


(** The cycle of the example patch. *)
Definition example_cycle : Circuit.t :=
  [H (mkGridQubit 0.5 0.5); H (mkGridQubit 0.5 1.5); H (mkGridQubit 1.5 0.5);
   CNOT (mkGridQubit 0.5 0.5) (mkGridQubit 0 0);
   CNOT (mkGridQubit 0.5 0.5) (mkGridQubit 0 1);
   CNOT (mkGridQubit 0.5 0.5) (mkGridQubit 1 0);
   CNOT (mkGridQubit 0.5 0.5) (mkGridQubit 1 1);
   CNOT (mkGridQubit 0.5 1.5) (mkGridQubit 0 1);
   CNOT (mkGridQubit 0.5 1.5) (mkGridQubit 1 1);
   CNOT (mkGridQubit 1.5 0.5) (mkGridQubit 1 0);
   CNOT (mkGridQubit 1.5 0.5) (mkGridQubit 1 1);
   H (mkGridQubit 0.5 0.5); H (mkGridQubit 0.5 1.5); H (mkGridQubit 1.5 0.5);
   CNOT (mkGridQubit 0 0) (mkGridQubit 0.5 0.5);
   CNOT (mkGridQubit 0 1) (mkGridQubit 0.5 0.5);
   CNOT (mkGridQubit 1 0) (mkGridQubit 0.5 0.5);
   CNOT (mkGridQubit 1 1) (mkGridQubit 0.5 0.5);
   CNOT (mkGridQubit 0 1) (mkGridQubit 0.5 1.5);
   CNOT (mkGridQubit 1 1) (mkGridQubit 0.5 1.5);
   CNOT (mkGridQubit 1 0) (mkGridQubit 1.5 0.5);
   CNOT (mkGridQubit 1 1) (mkGridQubit 1.5 0.5);
   measure [mkGridQubit 0.5 0.5; mkGridQubit 0.5 1.5; mkGridQubit 1.5 0.5]
           "syndrome"].

(** What the constructor prints for the example patch, and the four data
    qubits around its ancilla (0.5,0.5). *)
Definition example_banner : stdout :=
  ["[Stabilizers] Initialized for a 4 data qubit patch."%string].

Definition example_corners : list GridQubit :=
  [mkGridQubit 0 0; mkGridQubit 0 1; mkGridQubit 1 0; mkGridQubit 1 1].

(** The line feed that opens the header the scripts print. *)
Definition newline : string := String (Ascii.ascii_of_nat 10) EmptyString.

(** The [__main__] block of error-syndrome-stabilizers.py.
    [print(stabilizer_circuit)] writes the text diagram cirq draws of the
    circuit; the drawing is the library's, so the block takes it as the
    parameter [render]. *)
Definition stabilizers_main (render : Circuit.t -> string) : Py unit :=
  let data :=
    flat_map (fun i => map (fun j => mkGridQubit i j) [0; 1]) [0; 1] in
  let ancillas :=
    [mkGridQubit 0.5 0.5; mkGridQubit 0.5 1.5; mkGridQubit 1.5 0.5] in
  stabilizer_gen <- StabilizerCircuits.__init__ data ancillas ;;
  stabilizer_circuit <-
    StabilizerCircuits.create_stabilizer_cycle stabilizer_gen ;;
  print (newline ++ "--- One Cycle of Stabilizer Measurements ---")%string ;;
  print (render stabilizer_circuit) ;;
  print "--------------------------------------------".

(** The [__main__] block of logical-qubit-encoder.py. *)
Definition encoder_main (render : Circuit.t -> string) : Py unit :=
  let data :=
    flat_map (fun i => map (fun j => mkGridQubit i j) [0; 1]) [0; 1] in
  let ancillas :=
    [mkGridQubit 0.5 0.5; mkGridQubit 0.5 1.5; mkGridQubit 1.5 0.5] in
  encoder <- SurfaceCodeEncoder.__init__ data ancillas ;;
  logical_zero_circuit <-
    SurfaceCodeEncoder.create_logical_zero_circuit encoder ;;
  print (newline ++ "--- Logical |0> Preparation Circuit ---")%string ;;
  print (render logical_zero_circuit) ;;
  print "--------------------------------------" ;;
  print "Note: For the logical |0>, the circuit is trivial (resets)." ;;
  print "The complex operations occur during the stabilizer measurements.".

(** ** Equality of qubits and positions *)

Lemma qubit_eqb_refl (q : GridQubit) : qubit_eqb q q = true.
Proof.
  unfold qubit_eqb. now rewrite !Qeq_bool_refl.
Qed.

Lemma qubit_eqb_spec (a b : GridQubit) :
  qubit_eqb a b = true <-> row a == row b /\ col a == col b.
Proof.
  unfold qubit_eqb. now rewrite andb_true_iff, !Qeq_bool_iff.
Qed.

Lemma qubit_eqb_sym (a b : GridQubit) : qubit_eqb a b = qubit_eqb b a.
Proof.
  apply eq_true_iff_eq. rewrite !qubit_eqb_spec.
  split; intros [Hr Hc]; split; now symmetry.
Qed.

Lemma qubit_eqb_trans (a b c : GridQubit) :
  qubit_eqb a b = true -> qubit_eqb b c = true -> qubit_eqb a c = true.
Proof.
  rewrite !qubit_eqb_spec. intros [Hr Hc] [Hr' Hc'].
  split; etransitivity; eassumption.
Qed.

(** Equal qubits compare alike against any third one. *)
Lemma qubit_eqb_congr (a b c : GridQubit) :
  qubit_eqb a b = true -> qubit_eqb a c = qubit_eqb b c.
Proof.
  intros Hab. apply eq_true_iff_eq. split; intros Hc.
  - apply qubit_eqb_trans with a; [now rewrite qubit_eqb_sym | exact Hc].
  - now apply qubit_eqb_trans with b.
Qed.

Lemma pos_eqb_spec (p q : Pos) :
  pos_eqb p q = true <-> fst p == fst q /\ snd p == snd q.
Proof.
  unfold pos_eqb. now rewrite andb_true_iff, !Qeq_bool_iff.
Qed.

Lemma pos_eqb_congr_l (p p' q : Pos) :
  pos_eqb p p' = true -> pos_eqb p q = pos_eqb p' q.
Proof.
  intros Hp. apply pos_eqb_spec in Hp. destruct Hp as [Hf Hs].
  apply eq_true_iff_eq. rewrite !pos_eqb_spec.
  rewrite Hf, Hs. tauto.
Qed.

Lemma pos_eqb_congr_r (p q q' : Pos) :
  pos_eqb q q' = true -> pos_eqb p q = pos_eqb p q'.
Proof.
  intros Hq. apply pos_eqb_spec in Hq. destruct Hq as [Hf Hs].
  apply eq_true_iff_eq. rewrite !pos_eqb_spec.
  rewrite Hf, Hs. tauto.
Qed.

(** Equal qubits sit at the same positions. *)
Lemma sits_at_congr (p : Pos) (a b : GridQubit) :
  qubit_eqb a b = true -> sits_at p a = sits_at p b.
Proof.
  intros Hab. unfold sits_at. apply pos_eqb_congr_l.
  apply pos_eqb_spec. now apply qubit_eqb_spec.
Qed.

Lemma present_spec (l : list GridQubit) (q : GridQubit) :
  present l q = true <-> exists k, In k l /\ qubit_eqb k q = true.
Proof.
  unfold present. apply existsb_exists.
Qed.

Lemma present_app (l1 l2 : list GridQubit) (q : GridQubit) :
  present (l1 ++ l2) q = present l1 q || present l2 q.
Proof.
  unfold present. apply existsb_app.
Qed.

(** ** Float sums *)

(** Rounding sees the number, not the fraction that writes it. *)
Lemma round64_compat (x y : Q) : x == y -> round64 x = round64 y.
Proof.
  intros Hxy. unfold round64. now rewrite (Qred_complete x y Hxy).
Qed.

Lemma float_add_compat (x y f : Q) : x == y -> float_add x f = float_add y f.
Proof.
  intros Hxy. unfold float_add. now rewrite (round64_compat x y Hxy).
Qed.

Lemma ilog2_le (n d : Z) : (ilog2 n d <= Z.log2 n - Z.log2 d)%Z.
Proof.
  unfold ilog2.
  destruct (if (0 <=? Z.log2 n - Z.log2 d)%Z then _ else _); lia.
Qed.

Lemma round_half_even_exact (n d : Z) :
  (0 < d)%Z -> (d | n)%Z -> (round_half_even n d * d = n)%Z.
Proof.
  intros Hd Hdiv. unfold round_half_even.
  rewrite (Z.mod0_divide n d Hdiv).
  replace (2 * 0 ?= d)%Z with Lt by (symmetry; apply Z.compare_lt_iff; lia).
  destruct Hdiv as [c ->]. now rewrite Z.div_mul by lia.
Qed.

(** A quotient with denominator 1 or 2 and fewer than 53 bits before the
    binary point is a float. *)
Lemma round64_pos_half (n d : Z) :
  (0 < n)%Z -> d = 1%Z \/ d = 2%Z -> (Z.log2 n - Z.log2 d <= 51)%Z ->
  round64_pos n d == n # Z.to_pos d.
Proof.
  intros Hn Hd Hlog. unfold round64_pos.
  pose proof (ilog2_le n d) as Hle.
  set (e := Z.max (ilog2 n d - 52) (-1074)).
  assert (He : (-1074 <= e <= -1)%Z) by (unfold e; lia).
  replace (0 <=? e)%Z with false by (symmetry; apply Z.leb_gt; lia).
  assert (Hpow : (0 < 2 ^ (- e))%Z) by (apply Z.pow_pos_nonneg; lia).
  assert (Hdiv : (d | n * 2 ^ (- e))%Z).
  { destruct Hd as [-> | ->].
    - apply Z.divide_1_l.
    - apply Z.divide_mul_r. replace (- e)%Z with (Z.succ (- e - 1)) by lia.
      rewrite Z.pow_succ_r by lia. apply Z.divide_factor_l. }
  assert (Hdpos : (0 < d)%Z) by (destruct Hd; lia).
  unfold Qeq. cbn [Qnum Qden]. rewrite !Z2Pos.id by assumption.
  pose proof (round_half_even_exact _ _ Hdpos Hdiv) as Hex. lia.
Qed.

(** Every half-integer [j / 2] with [|j| <= 2^52] is a float. *)
Lemma round64_half (x : Q) (j : Z) :
  x == j # 2 -> (Z.abs j <= 2 ^ 52)%Z -> round64 x == x.
Proof.
  intros Hx Hj.
  pose proof (Qred_correct x) as Hred. pose proof (gcd_Qred x) as Hgcd.
  unfold round64. destruct (Qred x) as [n d] eqn:Hq. cbn [Qnum Qden] in *.
  assert (Heq : (n * 2 = j * Zpos d)%Z).
  { rewrite <- Hred in Hx. unfold Qeq in Hx. cbn [Qnum Qden] in Hx. exact Hx. }
  assert (Hd : Zpos d = 1%Z \/ Zpos d = 2%Z).
  { assert (Hdiv : (Zpos d | 2)%Z).
    { apply Z.gauss with n; [| now rewrite Z.gcd_comm].
      exists j. lia. }
    apply Z.divide_pos_le in Hdiv; lia. }
  assert (Hlog : forall p, n = Zpos p \/ n = Zneg p ->
            (Z.log2 (Zpos p) - Z.log2 (Zpos d) <= 51)%Z).
  { intros p Hp. destruct Hd as [Hd | Hd]; rewrite Hd.
    - assert (Hle : (Zpos p <= 2 ^ 51)%Z) by lia.
      apply Z.log2_le_mono in Hle. rewrite Z.log2_pow2 in Hle by lia.
      change (Z.log2 1) with 0%Z. lia.
    - assert (Hle : (Zpos p <= 2 ^ 52)%Z) by lia.
      apply Z.log2_le_mono in Hle. rewrite Z.log2_pow2 in Hle by lia.
      change (Z.log2 2) with 1%Z. lia. }
  rewrite <- Hred. destruct n as [| p | p].
  - reflexivity.
  - rewrite (round64_pos_half (Zpos p) (Zpos d)); [| lia | exact Hd | ].
    + reflexivity.
    + apply Hlog. now left.
  - rewrite (round64_pos_half (Zpos p) (Zpos d)); [| lia | exact Hd | ].
    + reflexivity.
    + apply Hlog. now right.
Qed.

(** The sum of a half-integer and a half is exact as long as both the
    number and the sum stay within 2^51. *)
Lemma float_add_half (x f : Q) (j s : Z) :
  x == j # 2 -> f == s # 2 ->
  (Z.abs j <= 2 ^ 52)%Z -> (Z.abs (j + s) <= 2 ^ 52)%Z ->
  float_add x f == x + f.
Proof.
  intros Hx Hf Hj Hjs. unfold float_add.
  pose proof (round64_half x j Hx Hj) as Hrx.
  assert (Hsum : round64 x + f == (j + s) # 2).
  { rewrite Hrx, Hx, Hf. unfold Qeq, Qplus. cbn [Qnum Qden]. lia. }
  rewrite (round64_half _ _ Hsum Hjs). now rewrite Hrx.
Qed.

Lemma reached_congr (q q' : GridQubit) (off : Q * Q) :
  qubit_eqb q q' = true -> reached q off = reached q' off.
Proof.
  intros Heq. apply qubit_eqb_spec in Heq. destruct Heq as [Hr Hc].
  unfold reached.
  now rewrite (float_add_compat _ _ (fst off) Hr),
    (float_add_compat _ _ (snd off) Hc).
Qed.

Lemma flat_map_agree {X Y} (f g : X -> list Y) (l : list X) :
  (forall x, In x l -> f x = g x) -> flat_map f l = flat_map g l.
Proof.
  induction l as [| x l IH]; intros Hfg; simpl.
  - reflexivity.
  - rewrite (Hfg x (or_introl eq_refl)), IH; [reflexivity |].
    intros y Hy. apply Hfg. now right.
Qed.

(** Where the sums are exact the resolver's positions are the diagonal
    ones. *)
Lemma sums_exact_reached (q : GridQubit) (off : Q * Q) :
  sums_exact q = true -> In off offsets ->
  pos_eqb (reached q off) (shifted q off) = true.
Proof.
  unfold sums_exact. rewrite forallb_forall. intros Hall Hoff.
  now apply Hall.
Qed.

Lemma scan_congr (l : list GridQubit) (q q' : GridQubit) :
  qubit_eqb q q' = true -> scan l q = scan l q'.
Proof.
  intros Heq. unfold scan. apply flat_map_ext. intros off.
  now rewrite (reached_congr q q' off Heq).
Qed.

Lemma scan_exact (l : list GridQubit) (q : GridQubit) :
  sums_exact q = true -> scan l q = neighborhood l q.
Proof.
  intros Hex. unfold scan, neighborhood. apply flat_map_agree.
  intros off Hoff. apply filter_ext. intros k. unfold sits_at.
  apply pos_eqb_congr_r. now apply sums_exact_reached.
Qed.

(** ** Dictionaries *)

Lemma keys_setitem (d : Dict.t) (k : GridQubit) (v : Pos) :
  Dict.keys (Dict.setitem d k v) =
  if present (Dict.keys d) k then Dict.keys d else Dict.keys d ++ [k].
Proof.
  induction d as [| [k' v'] d IH]; simpl.
  - reflexivity.
  - destruct (qubit_eqb k' k); simpl.
    + reflexivity.
    + fold (Dict.keys d) (Dict.keys (Dict.setitem d k v)) (present (Dict.keys d) k).
      rewrite IH. now destruct (present (Dict.keys d) k).
Qed.

(** Filling a dictionary from a sequence lists each distinct qubit once,
    at the place of its first occurrence. *)
Lemma keys_fill (l : list GridQubit) (d : Dict.t) :
  Dict.keys (fold_left (fun d q => Dict.setitem d q (row q, col q)) l d) =
  fold_left (fun seen q => if present seen q then seen else seen ++ [q])
            l (Dict.keys d).
Proof.
  revert d. induction l as [| q l IH]; intros d; simpl.
  - reflexivity.
  - now rewrite IH, keys_setitem.
Qed.

Lemma mem_keys (d : Dict.t) (k : GridQubit) :
  mem d k = present (Dict.keys d) k.
Proof.
  unfold mem. induction d as [| [k' v'] d IH]; simpl.
  - reflexivity.
  - destruct (qubit_eqb k' k); simpl; [reflexivity | exact IH].
Qed.

Lemma present_seen (l seen : list GridQubit) (q : GridQubit) :
  present
    (fold_left (fun seen q => if present seen q then seen else seen ++ [q])
               l seen) q
  = present seen q || present l q.
Proof.
  revert seen. induction l as [| x l IH]; intros seen; simpl.
  - now rewrite orb_false_r.
  - rewrite IH. destruct (present seen x) eqn:Hx.
    + destruct (qubit_eqb x q) eqn:Hxq; simpl; [| reflexivity].
      apply present_spec in Hx. destruct Hx as (k & Hk & Hkx).
      assert (Hq : present seen q = true).
      { apply present_spec. exists k. split; [exact Hk |].
        now apply qubit_eqb_trans with x. }
      now rewrite Hq.
    + rewrite present_app. simpl. now rewrite orb_false_r, orb_assoc.
Qed.

Lemma present_first_occurrences (l : list GridQubit) (q : GridQubit) :
  present (first_occurrences l) q = present l q.
Proof.
  unfold first_occurrences. now rewrite present_seen.
Qed.

Lemma In_seen (l seen : list GridQubit) (q : GridQubit) :
  In q (fold_left (fun seen q => if present seen q then seen else seen ++ [q])
                  l seen) ->
  In q seen \/ In q l.
Proof.
  revert seen. induction l as [| x l IH]; intros seen Hin; simpl in *.
  - now left.
  - apply IH in Hin. destruct Hin as [Hin | Hin]; [| now right; right].
    destruct (present seen x); [now left |].
    apply in_app_or in Hin. destruct Hin as [Hin | [Hin | []]].
    + now left.
    + right. now left.
Qed.

Lemma In_first_occurrences (l : list GridQubit) (q : GridQubit) :
  In q (first_occurrences l) -> In q l.
Proof.
  intros Hin. apply In_seen in Hin. now destruct Hin as [[] | Hin].
Qed.

Lemma coherent_setitem (d : Dict.t) (q : GridQubit) :
  coherent d -> coherent (Dict.setitem d q (row q, col q)).
Proof.
  unfold coherent. induction d as [| [k v] d IH]; intros Hd; simpl.
  - constructor; [| constructor]. simpl. apply pos_eqb_spec. now split.
  - inversion Hd as [| e d' He Hd']; subst.
    destruct (qubit_eqb k q) eqn:Hkq.
    + constructor; [| exact Hd']. simpl.
      apply pos_eqb_spec. apply qubit_eqb_spec.
      now rewrite qubit_eqb_sym.
    + constructor; [exact He | now apply IH].
Qed.

Lemma coherent_fill (l : list GridQubit) (d : Dict.t) :
  coherent d ->
  coherent (fold_left (fun d q => Dict.setitem d q (row q, col q)) l d).
Proof.
  revert d. induction l as [| q l IH]; intros d Hd; simpl.
  - exact Hd.
  - apply IH. now apply coherent_setitem.
Qed.

Lemma matches_keys (d : Dict.t) (p : Pos) :
  coherent d -> matches d p = filter (sits_at p) (Dict.keys d).
Proof.
  unfold coherent, matches. induction d as [| [k v] d IH]; intros Hd; simpl.
  - reflexivity.
  - inversion Hd as [| e d' He Hd']; subst. simpl in He.
    unfold sits_at at 1. rewrite <- (pos_eqb_congr_l _ _ p He).
    destruct (pos_eqb v p); simpl; now rewrite IH.
Qed.

(** A successful lookup yields the coordinates of the queried qubit. *)
Lemma get_coherent (d : Dict.t) (k : GridQubit) (v : Pos) :
  coherent d -> Dict.get d k = Some v -> pos_eqb v (row k, col k) = true.
Proof.
  unfold coherent. induction d as [| [k' v'] d IH]; intros Hd Hget; simpl in *.
  - discriminate.
  - inversion Hd as [| e d' He Hd']; subst. simpl in He.
    destruct (qubit_eqb k' k) eqn:Hk.
    + injection Hget as <-.
      rewrite (pos_eqb_congr_r _ _ (row k', col k')); [exact He |].
      apply pos_eqb_spec. apply qubit_eqb_spec. now rewrite qubit_eqb_sym.
    + now apply IH.
Qed.

(** ** Loops *)

(** The scan of the dictionary's items appends the matching keys. *)
Lemma scan_items (d : Dict.t) (p : Pos) (acc : list GridQubit) (out : stdout) :
  for_ (Dict.items d) acc
       (fun '(q, pos) neighbors =>
          if pos_eqb pos p then ret (neighbors ++ [q]) else ret neighbors) out
  = (Return (acc ++ matches d p), out).
Proof.
  unfold Dict.items, matches. revert acc.
  induction d as [| [q pos] d IH]; intros acc; simpl.
  - unfold ret. now rewrite app_nil_r.
  - unfold bind at 1. destruct (pos_eqb pos p); unfold ret at 1; simpl.
    + rewrite IH. now rewrite <- app_assoc.
    + apply IH.
Qed.

Section Resolver.

Import StabilizerCircuits.

Variable self : t.

(** On a registered qubit the resolver returns, offset by offset, the
    keys stored at the computed position, and writes nothing. *)
Lemma get_neighbors_found (a : GridQubit) (r c : Q) (out : stdout) :
  Dict.get (qubit_map self) a = Some (r, c) ->
  _get_neighbors self a out =
  (Return (flat_map (fun off => matches (qubit_map self)
                                        (float_add r (fst off),
                                         float_add c (snd off)))
                    offsets), out).
Proof.
  intros Hget. unfold _get_neighbors, Dict.getitem. rewrite Hget.
  unfold bind at 1, ret at 1.
  cbn [for_]. unfold bind. rewrite !scan_items.
  unfold ret. rewrite !scan_items. cbn [flat_map offsets fst snd app].
  now rewrite app_nil_r, <- !app_assoc.
Qed.

Lemma get_neighbors_missing (a : GridQubit) (out : stdout) :
  Dict.get (qubit_map self) a = None ->
  _get_neighbors self a out = (Raise (KeyError a), out).
Proof.
  intros Hget. unfold _get_neighbors, Dict.getitem. now rewrite Hget.
Qed.

End Resolver.

(** ** Objects made by the constructors *)

Section Constructed.

Import StabilizerCircuits.

Variables (d a : list GridQubit) (out0 out1 : stdout) (self : t).
Hypothesis Hinit : __init__ d a out0 = (Return self, out1).

Lemma init_fields :
  data_qubits self = d /\ ancilla_qubits self = a /\
  qubit_map self =
    fold_left (fun m q => Dict.setitem m q (row q, col q)) (d ++ a) Dict.empty.
Proof.
  unfold __init__, bind, print, ret in Hinit.
  injection Hinit as <- _. now repeat split.
Qed.

Lemma init_keys : Dict.keys (qubit_map self) = first_occurrences (d ++ a).
Proof.
  destruct init_fields as (_ & _ & ->). now rewrite keys_fill.
Qed.

Lemma init_coherent : coherent (qubit_map self).
Proof.
  destruct init_fields as (_ & _ & ->). apply coherent_fill. constructor.
Qed.

(** The mapping registers exactly the qubits passed to the constructor. *)
Lemma init_mem (q : GridQubit) : mem (qubit_map self) q = present (d ++ a) q.
Proof.
  now rewrite mem_keys, init_keys, present_first_occurrences.
Qed.

Lemma init_mem_In (q : GridQubit) : In q (d ++ a) -> mem (qubit_map self) q = true.
Proof.
  intros Hin. rewrite init_mem. apply present_spec.
  exists q. split; [exact Hin | apply qubit_eqb_refl].
Qed.

(** What the resolver returns on a registered qubit, in terms of the
    constructor's arguments. *)
Lemma get_neighbors_registered (q : GridQubit) (out : stdout) :
  mem (qubit_map self) q = true ->
  _get_neighbors self q out =
  (Return (flat_map (fun off => filter (sits_at (reached q off))
                                       (first_occurrences (d ++ a)))
                    offsets), out).
Proof.
  unfold mem. destruct (Dict.get (qubit_map self) q) as [[r c] |] eqn:Hget;
    [intros _ | discriminate].
  rewrite (get_neighbors_found self q r c out Hget). do 2 f_equal.
  apply flat_map_ext. intros off.
  rewrite (matches_keys _ _ init_coherent), init_keys.
  pose proof (get_coherent _ _ _ init_coherent Hget) as Hrc.
  apply pos_eqb_spec in Hrc. simpl in Hrc. destruct Hrc as [Hr Hc].
  unfold reached.
  now rewrite (float_add_compat r (row q) (fst off) Hr),
    (float_add_compat c (col q) (snd off) Hc).
Qed.

Lemma returned_registered (q : GridQubit) (out : stdout) :
  mem (qubit_map self) q = true ->
  _get_neighbors self q out = (Return (returned (_get_neighbors self q)), out).
Proof.
  intros Hq. unfold returned.
  now rewrite !(get_neighbors_registered q _ Hq).
Qed.

End Constructed.

(** Where the sums around the queried qubit are exact, the resolver
    returns the distinct qubits at the four diagonal positions. *)
Lemma get_neighbors_exact
    (d a : list GridQubit) (out0 out1 : stdout) (self : StabilizerCircuits.t)
    (q : GridQubit) (out : stdout) :
  StabilizerCircuits.__init__ d a out0 = (Return self, out1) ->
  mem (StabilizerCircuits.qubit_map self) q = true ->
  sums_exact q = true ->
  StabilizerCircuits._get_neighbors self q out =
  (Return (flat_map (fun off => filter (sits_at (shifted q off))
                                       (first_occurrences (d ++ a)))
                    offsets), out).
Proof.
  intros Hinit Hq Hex.
  rewrite (get_neighbors_registered d a out0 out1 self Hinit q out Hq).
  do 2 f_equal. exact (scan_exact (d ++ a) q Hex).
Qed.

(** One pass over the ancillas appending, for each, one controlled gate
    per resolved neighbour. *)
Lemma cnot_pass (self : StabilizerCircuits.t)
    (g : GridQubit -> GridQubit -> Operation) (l : list GridQubit)
    (circuit : Circuit.t) (out : stdout) :
  (forall q out', In q l ->
     StabilizerCircuits._get_neighbors self q out' =
     (Return (returned (StabilizerCircuits._get_neighbors self q)), out')) ->
  for_ l circuit (fun ancilla circuit =>
    neighbors <- StabilizerCircuits._get_neighbors self ancilla ;;
    ret (Circuit.append circuit (map (g ancilla) neighbors))) out
  = (Return (circuit ++
             flat_map (fun q =>
               map (g q) (returned (StabilizerCircuits._get_neighbors self q)))
               l), out).
Proof.
  revert circuit. induction l as [| q l IH]; intros circuit Hl; simpl.
  - unfold ret. now rewrite app_nil_r.
  - unfold bind at 1. unfold bind at 1.
    rewrite (Hl q out (or_introl eq_refl)). unfold ret at 1.
    rewrite IH by (intros; apply Hl; now right).
    unfold Circuit.append. now rewrite <- app_assoc.
Qed.

(** The number of gates one pass appends. *)
Lemma length_gates (g : GridQubit -> GridQubit -> Operation)
    (nb : GridQubit -> list GridQubit) (l : list GridQubit) :
  List.length (flat_map (fun q => map (g q) (nb q)) l)
  = list_sum (map (fun q => List.length (nb q)) l).
Proof.
  induction l as [| q l IH]; simpl.
  - reflexivity.
  - now rewrite length_app, length_map, IH.
Qed.

(** ** The stabilizer cycle *)


(** C10. [create_stabilizer_cycle] never meets the resolver's lookup
    error: the constructor registered every qubit of the ancilla sequence,
    the resolver returns on each of them, and so the cycle returns a
    circuit. *)
Theorem stabilizer_cycle_never_raises
    (d a : list GridQubit) (out0 out1 : stdout) (self : StabilizerCircuits.t) :
  StabilizerCircuits.__init__ d a out0 = (Return self, out1) ->
  (forall q, In q (StabilizerCircuits.ancilla_qubits self) ->
     mem (StabilizerCircuits.qubit_map self) q = true) /\
  (forall q out, In q (StabilizerCircuits.ancilla_qubits self) ->
     exists neighbors,
       StabilizerCircuits._get_neighbors self q out = (Return neighbors, out)) /\
  (forall out, exists circuit out',
     StabilizerCircuits.create_stabilizer_cycle self out = (Return circuit, out')).
Proof.
  intros Hinit.
  destruct (init_fields d a out0 out1 self Hinit) as (_ & Ha & _).
  assert (Hmem : forall q, In q (StabilizerCircuits.ancilla_qubits self) ->
                   mem (StabilizerCircuits.qubit_map self) q = true).
  { rewrite Ha. intros q Hq. apply (init_mem_In d a out0 out1 self Hinit).
    apply in_or_app. now right. }
  split; [exact Hmem | split].
  - intros q out Hq. eexists.
    apply (returned_registered d a out0 out1 self Hinit). now apply Hmem.
  - intros out. unfold StabilizerCircuits.create_stabilizer_cycle.
    assert (Hnb : forall q out', In q (StabilizerCircuits.ancilla_qubits self) ->
              StabilizerCircuits._get_neighbors self q out' =
              (Return (returned (StabilizerCircuits._get_neighbors self q)), out')).
    { intros q out' Hq.
      apply (returned_registered d a out0 out1 self Hinit). now apply Hmem. }
    unfold bind at 1.
    rewrite (cnot_pass self (fun q data => CNOT q data) _ _ out Hnb).
    unfold bind at 1.
    rewrite (cnot_pass self (fun q data => CNOT data q) _ _ out Hnb).
    unfold bind, print, ret. eexists. eexists. reflexivity.
Qed.

(** ** The logical-zero circuit *)

(** C2. On a layout with data-qubit sequence [d] of length N,
    [create_logical_zero_circuit] returns the circuit made of one reset
    per data qubit, in the order of [d], and nothing else: N operations. *)
Theorem logical_zero_resets
    (d a : list GridQubit) (out0 out1 : stdout) (self : SurfaceCodeEncoder.t) :
  SurfaceCodeEncoder.__init__ d a out0 = (Return self, out1) ->
  forall out : stdout, exists (circuit : Circuit.t) (out' : stdout),
    SurfaceCodeEncoder.create_logical_zero_circuit self out = (Return circuit, out') /\
    circuit = map reset d /\
    List.length circuit = List.length d.
Proof.
  intros Hinit out.
  unfold SurfaceCodeEncoder.__init__, bind, print, ret in Hinit.
  injection Hinit as <- _.
  unfold SurfaceCodeEncoder.create_logical_zero_circuit, bind, print, ret.
  eexists. eexists. split; [reflexivity |].
  unfold Circuit.append, Circuit.new. simpl.
  split; [reflexivity | apply length_map].
Qed.

(** ** The neighbour resolver *)


(** C6. The resolver raises a lookup error exactly when the queried qubit
    is absent from the mapping, that is when it occurs neither in the data
    nor in the ancilla sequence given to the constructor; on a registered
    qubit it returns. *)
Theorem get_neighbors_keyerror_iff
    (d a : list GridQubit) (out0 out1 : stdout) (self : StabilizerCircuits.t) :
  StabilizerCircuits.__init__ d a out0 = (Return self, out1) ->
  forall (q : GridQubit) (out : stdout),
  ((exists e out', StabilizerCircuits._get_neighbors self q out = (Raise e, out'))
   <-> mem (StabilizerCircuits.qubit_map self) q = false) /\
  (mem (StabilizerCircuits.qubit_map self) q = false
   <-> present d q = false /\ present a q = false) /\
  (mem (StabilizerCircuits.qubit_map self) q = false ->
   StabilizerCircuits._get_neighbors self q out = (Raise (KeyError q), out)) /\
  (mem (StabilizerCircuits.qubit_map self) q = true ->
   exists neighbors,
     StabilizerCircuits._get_neighbors self q out = (Return neighbors, out)).
Proof.
  intros Hinit q out.
  assert (Habsent : mem (StabilizerCircuits.qubit_map self) q = false ->
            StabilizerCircuits._get_neighbors self q out = (Raise (KeyError q), out)).
  { unfold mem. intros Hm. apply get_neighbors_missing.
    now destruct (Dict.get (StabilizerCircuits.qubit_map self) q). }
  assert (Hthere : mem (StabilizerCircuits.qubit_map self) q = true ->
            exists neighbors,
              StabilizerCircuits._get_neighbors self q out = (Return neighbors, out)).
  { intros Hm. eexists.
    exact (returned_registered d a out0 out1 self Hinit q out Hm). }
  split; [split | split; [| split; [exact Habsent | exact Hthere]]].
  - intros (e & out' & Hraise).
    destruct (mem (StabilizerCircuits.qubit_map self) q) eqn:Hm; [| reflexivity].
    destruct (Hthere eq_refl) as (ns & Hns). congruence.
  - intros Hm. exists (KeyError q), out. now apply Habsent.
  - rewrite (init_mem d a out0 out1 self Hinit), present_app.
    apply orb_false_iff.
Qed.

(** C9. On the example patch (data qubits at (0,0), (0,1), (1,0), (1,1),
    ancillas at (0.5,0.5), (0.5,1.5), (1.5,0.5)) the resolver returns the
    four data qubits for the ancilla at (0.5,0.5) and the two data qubits
    (0,1) and (1,1) for the ancilla at (0.5,1.5). *)
Theorem example_patch_neighbors
    (out0 out1 : stdout) (self : StabilizerCircuits.t) :
  StabilizerCircuits.__init__
    [mkGridQubit 0 0; mkGridQubit 0 1; mkGridQubit 1 0; mkGridQubit 1 1]
    [mkGridQubit 0.5 0.5; mkGridQubit 0.5 1.5; mkGridQubit 1.5 0.5] out0
  = (Return self, out1) ->
  forall out : stdout,
  StabilizerCircuits._get_neighbors self (mkGridQubit 0.5 0.5) out =
    (Return [mkGridQubit 0 0; mkGridQubit 0 1; mkGridQubit 1 0; mkGridQubit 1 1],
     out) /\
  StabilizerCircuits._get_neighbors self (mkGridQubit 0.5 1.5) out =
    (Return [mkGridQubit 0 1; mkGridQubit 1 1], out).
Proof.
  intros Hinit out. split.
  - rewrite (get_neighbors_registered _ _ out0 out1 self Hinit).
    + reflexivity.
    + now rewrite (init_mem _ _ out0 out1 self Hinit).
  - rewrite (get_neighbors_registered _ _ out0 out1 self Hinit).
    + reflexivity.
    + now rewrite (init_mem _ _ out0 out1 self Hinit).
Qed.

(** ** Which qubits the resolver returns *)

Lemma sits_at_spec (p : Pos) (q : GridQubit) :
  sits_at p q = true <-> row q == fst p /\ col q == snd p.
Proof.
  unfold sits_at. now rewrite pos_eqb_spec.
Qed.

(** Two qubits at one position are equal. *)
Lemma sits_at_same (p : Pos) (x y : GridQubit) :
  sits_at p x = true -> sits_at p y = true -> qubit_eqb x y = true.
Proof.
  rewrite !sits_at_spec, qubit_eqb_spec. intros [Hr Hc] [Hr' Hc'].
  split; [now rewrite Hr, Hr' | now rewrite Hc, Hc'].
Qed.

Lemma offsets_half (off : Q * Q) :
  In off offsets <->
  (fst off = -0.5 \/ fst off = 0.5) /\ (snd off = -0.5 \/ snd off = 0.5).
Proof.
  unfold offsets. simpl. destruct off as [dr dc]. simpl. split.
  - intros [E | [E | [E | [E | []]]]]; injection E as <- <-; tauto.
  - intros [[-> | ->] [-> | ->]]; tauto.
Qed.

(** Where the sums around the queried qubit are exact, the resolver
    returns registered qubits only, each at one of the four diagonal
    positions (row and column both differ by one half), and it returns
    every qubit of the layout, data or ancilla, that sits at such a
    position. *)
Lemma get_neighbors_members
    (d a : list GridQubit) (out0 out1 : stdout) (self : StabilizerCircuits.t) :
  StabilizerCircuits.__init__ d a out0 = (Return self, out1) ->
  forall (q : GridQubit) (out : stdout),
  mem (StabilizerCircuits.qubit_map self) q = true ->
  sums_exact q = true ->
  exists neighbors,
    StabilizerCircuits._get_neighbors self q out = (Return neighbors, out) /\
    (forall k, In k neighbors ->
       In k (d ++ a) /\
       exists dr dc, (dr = -0.5 \/ dr = 0.5) /\ (dc = -0.5 \/ dc = 0.5) /\
                     row k == row q + dr /\ col k == col q + dc) /\
    (forall k dr dc, In k (d ++ a) ->
       (dr = -0.5 \/ dr = 0.5) -> (dc = -0.5 \/ dc = 0.5) ->
       row k == row q + dr -> col k == col q + dc ->
       exists k', In k' neighbors /\ qubit_eqb k' k = true).
Proof.
  intros Hinit q out Hq Hex. eexists. split.
  { exact (get_neighbors_exact d a out0 out1 self q out Hinit Hq Hex). }
  split.
  - intros k Hk. apply in_flat_map in Hk. destruct Hk as (off & Hoff & Hk).
    apply filter_In in Hk. destruct Hk as [Hk Hat]. split.
    + now apply In_first_occurrences.
    + apply offsets_half in Hoff. destruct Hoff as [Hdr Hdc].
      apply sits_at_spec in Hat. exists (fst off), (snd off). tauto.
  - intros k dr dc Hk Hdr Hdc Hrow Hcol.
    assert (Hpres : present (first_occurrences (d ++ a)) k = true).
    { rewrite present_first_occurrences. apply present_spec.
      exists k. split; [exact Hk | apply qubit_eqb_refl]. }
    apply present_spec in Hpres. destruct Hpres as (k' & Hk' & Heq).
    exists k'. split; [| exact Heq].
    apply in_flat_map. exists (dr, dc). split.
    + apply offsets_half. now split.
    + apply filter_In. split; [exact Hk' |].
      rewrite (sits_at_congr _ k' k Heq). apply sits_at_spec. now split.
Qed.

(** C3 (what the code does where the claim fails).  In the layout with a data
    qubit at (0,0) and ancillas at (0.5,0.5) and (1,1), the resolver
    returns for the ancilla at (0.5,0.5) the data qubit (0,0) and the
    ancilla (1,1), which is no data qubit. *)
Theorem get_neighbors_returns_ancilla :
  exists (self : StabilizerCircuits.t) (out1 : stdout),
    StabilizerCircuits.__init__ diagonal_data diagonal_ancillas [] =
      (Return self, out1) /\
    StabilizerCircuits._get_neighbors self (mkGridQubit 0.5 0.5) [] =
      (Return [mkGridQubit 0 0; mkGridQubit 1 1], []) /\
    In (mkGridQubit 1 1) diagonal_ancillas /\
    present diagonal_data (mkGridQubit 1 1) = false.
Proof.
  eexists. eexists. split; [reflexivity |].
  split; [reflexivity |]. split; [right; now left | reflexivity].
Qed.

(** ** How many qubits the resolver returns *)

(** Among the distinct qubits of a sequence at most one sits at a given
    position. *)
Lemma count_seen (p : Pos) (l seen : list GridQubit) :
  List.length (filter (sits_at p) seen)
    = (if existsb (sits_at p) seen then 1 else 0)%nat ->
  List.length
    (filter (sits_at p)
       (fold_left (fun seen q => if present seen q then seen else seen ++ [q])
                  l seen))
    = (if existsb (sits_at p) (seen ++ l) then 1 else 0)%nat.
Proof.
  revert seen. induction l as [| x l IH]; intros seen Hseen; simpl.
  - now rewrite app_nil_r.
  - destruct (present seen x) eqn:Hx.
    + rewrite (IH seen Hseen). rewrite !existsb_app. simpl.
      destruct (sits_at p x) eqn:Hpx; [| reflexivity].
      apply present_spec in Hx. destruct Hx as (k & Hk & Hkx).
      assert (Hex : existsb (sits_at p) seen = true).
      { apply existsb_exists. exists k. split; [exact Hk |].
        now rewrite (sits_at_congr p k x Hkx). }
      now rewrite Hex.
    + rewrite (IH (seen ++ [x])).
      * now rewrite <- app_assoc.
      * rewrite filter_app, length_app, existsb_app. simpl.
        destruct (sits_at p x) eqn:Hpx; simpl.
        -- destruct (existsb (sits_at p) seen) eqn:Hex.
           ++ apply existsb_exists in Hex. destruct Hex as (k & Hk & Hpk).
              assert (Hpres : present seen x = true).
              { apply present_spec. exists k. split; [exact Hk |].
                now apply sits_at_same with p. }
              congruence.
           ++ rewrite Hseen. reflexivity.
        -- rewrite Hseen, orb_false_r. lia.
Qed.

Lemma count_first_occurrences (p : Pos) (l : list GridQubit) :
  List.length (filter (sits_at p) (first_occurrences l))
  = (if existsb (sits_at p) l then 1 else 0)%nat.
Proof.
  unfold first_occurrences. now rewrite count_seen.
Qed.

(** On a registered qubit around which the sums are exact, the resolver
    returns as many neighbours as there are diagonal positions holding a
    qubit of the layout, data or ancilla. *)
Lemma get_neighbors_count
    (d a : list GridQubit) (out0 out1 : stdout) (self : StabilizerCircuits.t) :
  StabilizerCircuits.__init__ d a out0 = (Return self, out1) ->
  forall (q : GridQubit) (out : stdout),
  mem (StabilizerCircuits.qubit_map self) q = true ->
  sums_exact q = true ->
  exists neighbors,
    StabilizerCircuits._get_neighbors self q out = (Return neighbors, out) /\
    List.length neighbors = occupied_around (d ++ a) q.
Proof.
  intros Hinit q out Hq Hex. eexists. split.
  { exact (get_neighbors_exact d a out0 out1 self q out Hinit Hq Hex). }
  unfold occupied_around, offsets. cbn [flat_map filter].
  rewrite !length_app, !count_first_occurrences.
  repeat match goal with
         | |- context [existsb ?f ?l] => destruct (existsb f l)
         end; reflexivity.
Qed.

(** Where the sums are exact, an ancilla with data qubits on all four
    corners gets exactly four neighbours, and one with an empty corner
    fewer. *)
Lemma get_neighbors_interior
    (d a : list GridQubit) (out0 out1 : stdout) (self : StabilizerCircuits.t) :
  StabilizerCircuits.__init__ d a out0 = (Return self, out1) ->
  forall (q : GridQubit) (out : stdout),
  mem (StabilizerCircuits.qubit_map self) q = true ->
  sums_exact q = true ->
  exists neighbors,
    StabilizerCircuits._get_neighbors self q out = (Return neighbors, out) /\
    (List.length neighbors <= 4)%nat /\
    (occupied_around d q = 4%nat -> List.length neighbors = 4%nat) /\
    (occupied_around (d ++ a) q < 4 -> List.length neighbors < 4)%nat.
Proof.
  intros Hinit q out Hq Hex.
  destruct (get_neighbors_count d a out0 out1 self Hinit q out Hq Hex)
    as (ns & Hns & Hlen).
  exists ns. split; [exact Hns |]. rewrite Hlen.
  unfold occupied_around, offsets. cbn [filter]. rewrite !existsb_app.
  repeat match goal with
         | |- context [existsb ?f d] => destruct (existsb f d)
         end;
  repeat match goal with
         | |- context [existsb ?f a] => destruct (existsb f a)
         end; simpl; repeat split; intros; try lia; try discriminate.
Qed.

(** C4 (the code at the input where the claim fails).  Around the ancilla
    at (0.5,0.5) only three diagonal positions hold a data qubit, (0,0),
    (0,1) and (1,0); the fourth holds the ancilla (1,1).  The resolver
    returns four qubits, not fewer than four. *)
Theorem get_neighbors_counts_ancilla :
  exists (self : StabilizerCircuits.t) (out1 : stdout),
    StabilizerCircuits.__init__ corner_data corner_ancillas [] =
      (Return self, out1) /\
    occupied_around corner_data (mkGridQubit 0.5 0.5) = 3%nat /\
    StabilizerCircuits._get_neighbors self (mkGridQubit 0.5 0.5) [] =
      (Return [mkGridQubit 0 0; mkGridQubit 0 1; mkGridQubit 1 0;
               mkGridQubit 1 1], []).
Proof.
  eexists. eexists. split; [reflexivity |].
  split; reflexivity.
Qed.

(** ** Where the float sums round

    Beyond 2^52 a float has no half: the sums of the resolver round, and
    it reaches positions that are not diagonal. *)

Lemma float_add_rounds :
  float_add (2 ^ 52) 0.5 == 2 ^ 52 /\
  float_add (2 ^ 52 + 1) 0.5 == 2 ^ 52 + 2 /\
  float_add (2 ^ 53) (-0.5) == 2 ^ 53 /\
  float_add (2 ^ 53) 0.5 == 2 ^ 53 /\
  float_add (round64 0.1) 0.5 == round64 0.6 /\
  ~ float_add (round64 0.6) (-0.5) == round64 0.1 /\
  float_add 1.5 (-0.5) == 1.
Proof.
  repeat split; try (apply Qeq_bool_iff; vm_compute; reflexivity).
  intros Heq. apply Qeq_bool_iff in Heq. vm_compute in Heq. discriminate.
Qed.

(** Alone in its layout, the qubit at (2^52, 2^52) is returned as its own
    neighbour, and the one at (2^53, 2^53) four times; the qubit at
    (2^52 + 2, 2^52 + 2) is returned for the one at (2^52 + 1, 2^52 + 1),
    one whole step away. *)
Lemma get_neighbors_rounds :
  fst ((self <- StabilizerCircuits.__init__ [] [mkGridQubit (2 ^ 52) (2 ^ 52)] ;;
        StabilizerCircuits._get_neighbors self (mkGridQubit (2 ^ 52) (2 ^ 52))) [])
  = Return [mkGridQubit (2 ^ 52) (2 ^ 52)] /\
  fst ((self <- StabilizerCircuits.__init__ [] [mkGridQubit (2 ^ 53) (2 ^ 53)] ;;
        StabilizerCircuits._get_neighbors self (mkGridQubit (2 ^ 53) (2 ^ 53))) [])
  = Return [mkGridQubit (2 ^ 53) (2 ^ 53); mkGridQubit (2 ^ 53) (2 ^ 53);
            mkGridQubit (2 ^ 53) (2 ^ 53); mkGridQubit (2 ^ 53) (2 ^ 53)] /\
  fst ((self <- StabilizerCircuits.__init__
                  [mkGridQubit (2 ^ 52 + 2) (2 ^ 52 + 2)]
                  [mkGridQubit (2 ^ 52 + 1) (2 ^ 52 + 1)] ;;
        StabilizerCircuits._get_neighbors self
          (mkGridQubit (2 ^ 52 + 1) (2 ^ 52 + 1))) [])
  = Return [mkGridQubit (2 ^ 52 + 2) (2 ^ 52 + 2)] /\
  sums_exact (mkGridQubit (2 ^ 52) (2 ^ 52)) = false.
Proof.
  repeat split; vm_compute; reflexivity.
Qed.

(** ** Colliding coordinates *)

Lemma length_seen (l seen : list GridQubit) :
  (List.length
     (fold_left (fun seen q => if present seen q then seen else seen ++ [q])
                l seen)
   <= List.length seen + List.length l)%nat.
Proof.
  revert seen. induction l as [| x l IH]; intros seen; simpl.
  - lia.
  - destruct (present seen x).
    + specialize (IH seen). lia.
    + specialize (IH (seen ++ [x])). rewrite length_app in IH. simpl in IH. lia.
Qed.

(** A qubit equal to an earlier one adds no key. *)
Lemma length_seen_collision (l seen : list GridQubit) :
  collides l = true \/ (exists q, In q l /\ present seen q = true) ->
  (List.length
     (fold_left (fun seen q => if present seen q then seen else seen ++ [q])
                l seen)
   < List.length seen + List.length l)%nat.
Proof.
  revert seen. induction l as [| x l IH]; intros seen Hcol; simpl.
  - destruct Hcol as [Hcol | (q & [] & _)]. discriminate.
  - destruct (present seen x) eqn:Hx.
    + pose proof (length_seen l seen). lia.
    + assert (Hnext : collides l = true \/
                      (exists q, In q l /\ present (seen ++ [x]) q = true)).
      { destruct Hcol as [Hcol | (q & [<- | Hq] & Hpres)].
        - simpl in Hcol. apply orb_true_iff in Hcol.
          destruct Hcol as [Hlx | Hcol]; [| now left].
          apply present_spec in Hlx. destruct Hlx as (k & Hk & Hkx).
          right. exists k. split; [exact Hk |].
          rewrite present_app. simpl.
          now rewrite (qubit_eqb_sym x k), Hkx, orb_true_r.
        - congruence.
        - right. exists q. split; [exact Hq |].
          now rewrite present_app, Hpres. }
      specialize (IH (seen ++ [x]) Hnext).
      rewrite length_app in IH. simpl in IH. lia.
Qed.

(** C7 (as stated, refuted).  The layout whose ancilla has the coordinates
    of its data qubit is not rejected: both constructors return, and the
    stabilizer cycle built from it returns as well. *)
Lemma colliding_layout_not_rejected :
  collides (twin_data ++ twin_ancillas) = true /\
  ~ (exists e out',
       StabilizerCircuits.__init__ twin_data twin_ancillas [] = (Raise e, out')) /\
  ~ (exists e out',
       SurfaceCodeEncoder.__init__ twin_data twin_ancillas [] = (Raise e, out')) /\
  ~ (exists e out',
       (self <- StabilizerCircuits.__init__ twin_data twin_ancillas ;;
        StabilizerCircuits.create_stabilizer_cycle self) [] = (Raise e, out')).
Proof.
  split; [reflexivity |].
  repeat split; intros (e & out' & Hraise); vm_compute in Hraise; discriminate.
Qed.

(** C7 (amended).  A layout in which two qubits of the combined sequence
    have equal coordinates is accepted by both constructors.  They return
    an object that keeps the two sequences as given; the encoder's
    [all_qubits] is their concatenation, repetitions included, and the
    coordinate mapping of [StabilizerCircuits] holds one entry per
    distinct coordinate, hence fewer entries than qubits, and registers
    every qubit given. *)
Theorem colliding_layout_accepted (d a : list GridQubit) (out : stdout) :
  collides (d ++ a) = true ->
  (exists self out',
     StabilizerCircuits.__init__ d a out = (Return self, out') /\
     StabilizerCircuits.data_qubits self = d /\
     StabilizerCircuits.ancilla_qubits self = a /\
     Dict.keys (StabilizerCircuits.qubit_map self) = first_occurrences (d ++ a) /\
     (List.length (Dict.keys (StabilizerCircuits.qubit_map self))
      < List.length (d ++ a))%nat /\
     (forall q, In q (d ++ a) ->
        mem (StabilizerCircuits.qubit_map self) q = true)) /\
  (exists enc out',
     SurfaceCodeEncoder.__init__ d a out = (Return enc, out') /\
     SurfaceCodeEncoder.data_qubits enc = d /\
     SurfaceCodeEncoder.ancilla_qubits enc = a /\
     SurfaceCodeEncoder.all_qubits enc = d ++ a).
Proof.
  intros Hcol. split.
  - eexists. eexists. split; [reflexivity |].
    cbn [StabilizerCircuits.data_qubits StabilizerCircuits.ancilla_qubits
         StabilizerCircuits.qubit_map].
    rewrite keys_fill.
    change (fold_left _ (d ++ a) (Dict.keys Dict.empty))
      with (first_occurrences (d ++ a)).
    split; [reflexivity | split; [reflexivity | split; [reflexivity | split]]].
    + apply (length_seen_collision (d ++ a) []). now left.
    + intros q Hq. rewrite mem_keys, keys_fill.
      change (fold_left _ (d ++ a) (Dict.keys Dict.empty))
        with (first_occurrences (d ++ a)).
      rewrite present_first_occurrences. apply present_spec.
      exists q. split; [exact Hq | apply qubit_eqb_refl].
  - eexists. eexists. split; [reflexivity |]. now repeat split.
Qed.

(** ** The theorems at the example patch *)

Lemma example_stabilizers_init :
  StabilizerCircuits.__init__ example_data example_ancillas [] =
  (Return example_stabilizers,
   ["[Stabilizers] Initialized for a 4 data qubit patch."%string]).
Proof. reflexivity. Defined.

Lemma example_encoder_init :
  SurfaceCodeEncoder.__init__ example_data example_ancillas [] =
  (Return example_encoder,
   ["[Encoder] Initialized with 4 data qubits and 3 ancilla qubits."%string]).
Proof. reflexivity. Defined.


Lemma stabilizer_cycle_never_raises_witness :
  StabilizerCircuits.__init__ example_data example_ancillas [] =
    (Return example_stabilizers,
     ["[Stabilizers] Initialized for a 4 data qubit patch."%string]) /\
  exists circuit out',
    StabilizerCircuits.create_stabilizer_cycle example_stabilizers [] =
      (Return circuit, out').
Proof.
  split; [exact example_stabilizers_init |].
  destruct (stabilizer_cycle_never_raises _ _ _ _ _ example_stabilizers_init)
    as (_ & _ & Hrun).
  exact (Hrun []).
Defined.

Lemma logical_zero_resets_witness :
  SurfaceCodeEncoder.__init__ example_data example_ancillas [] =
    (Return example_encoder,
     ["[Encoder] Initialized with 4 data qubits and 3 ancilla qubits."%string]) /\
  exists circuit out',
    SurfaceCodeEncoder.create_logical_zero_circuit example_encoder [] =
      (Return circuit, out') /\
    circuit = [reset (mkGridQubit 0 0); reset (mkGridQubit 0 1);
               reset (mkGridQubit 1 0); reset (mkGridQubit 1 1)] /\
    List.length circuit = 4%nat.
Proof.
  split; [exact example_encoder_init |].
  exact (logical_zero_resets _ _ _ _ _ example_encoder_init []).
Defined.


Lemma get_neighbors_keyerror_iff_witness :
  StabilizerCircuits.__init__ example_data example_ancillas [] =
    (Return example_stabilizers,
     ["[Stabilizers] Initialized for a 4 data qubit patch."%string]) /\
  StabilizerCircuits._get_neighbors example_stabilizers (mkGridQubit 2 2) [] =
    (Raise (KeyError (mkGridQubit 2 2)), []).
Proof.
  split; [exact example_stabilizers_init |].
  destruct (get_neighbors_keyerror_iff _ _ _ _ _ example_stabilizers_init
              (mkGridQubit 2 2) [])
    as (_ & _ & Habsent & _).
  apply Habsent. reflexivity.
Defined.

Lemma example_patch_neighbors_witness :
  StabilizerCircuits.__init__
    [mkGridQubit 0 0; mkGridQubit 0 1; mkGridQubit 1 0; mkGridQubit 1 1]
    [mkGridQubit 0.5 0.5; mkGridQubit 0.5 1.5; mkGridQubit 1.5 0.5] []
  = (Return example_stabilizers,
     ["[Stabilizers] Initialized for a 4 data qubit patch."%string]) /\
  StabilizerCircuits._get_neighbors example_stabilizers (mkGridQubit 0.5 0.5) [] =
    (Return [mkGridQubit 0 0; mkGridQubit 0 1; mkGridQubit 1 0; mkGridQubit 1 1],
     []) /\
  StabilizerCircuits._get_neighbors example_stabilizers (mkGridQubit 0.5 1.5) [] =
    (Return [mkGridQubit 0 1; mkGridQubit 1 1], []).
Proof.
  split; [exact example_stabilizers_init |].
  exact (example_patch_neighbors _ _ _ example_stabilizers_init []).
Defined.

Lemma colliding_layout_accepted_witness :
  collides (twin_data ++ twin_ancillas) = true /\
  exists self out',
    StabilizerCircuits.__init__ twin_data twin_ancillas [] = (Return self, out') /\
    Dict.keys (StabilizerCircuits.qubit_map self) = [mkGridQubit 0 0] /\
    (List.length (Dict.keys (StabilizerCircuits.qubit_map self)) < 2)%nat.
Proof.
  split; [reflexivity |].
  destruct (colliding_layout_accepted twin_data twin_ancillas [] eq_refl)
    as ((self & out' & Hinit & _ & _ & Hkeys & Hlen & _) & _).
  exists self, out'. split; [exact Hinit |]. split; [| exact Hlen].
  rewrite Hkeys. reflexivity.
Defined.

(** ** The geometry of neighbours *)

Lemma diagonal_spec (q k : GridQubit) :
  diagonal q k = true <->
  exists dr dc, (dr = -0.5 \/ dr = 0.5) /\ (dc = -0.5 \/ dc = 0.5) /\
                row k == row q + dr /\ col k == col q + dc.
Proof.
  unfold diagonal. rewrite existsb_exists. split.
  - intros (off & Hoff & Hat). apply offsets_half in Hoff.
    apply sits_at_spec in Hat. exists (fst off), (snd off). tauto.
  - intros (dr & dc & Hdr & Hdc & Hrow & Hcol). exists (dr, dc). split.
    + apply offsets_half. now split.
    + apply sits_at_spec. now split.
Qed.

(** No qubit is diagonal to itself or to an equal qubit. *)
Lemma diagonal_irrefl (q k : GridQubit) :
  diagonal q k = true -> qubit_eqb k q = false.
Proof.
  intros Hd. apply diagonal_spec in Hd.
  destruct Hd as (dr & dc & Hdr & _ & Hrow & _).
  destruct (qubit_eqb k q) eqn:Heq; [| reflexivity].
  apply qubit_eqb_spec in Heq. destruct Heq as [Hr _].
  rewrite Hr in Hrow. destruct Hdr as [-> | ->]; lra.
Qed.

Lemma diagonal_sym (q k : GridQubit) : diagonal q k = diagonal k q.
Proof.
  assert (Hhalf : forall x y, diagonal x y = true -> diagonal y x = true).
  { intros x y Hd. apply diagonal_spec in Hd.
    destruct Hd as (dr & dc & Hdr & Hdc & Hrow & Hcol).
    apply diagonal_spec. exists (- dr), (- dc).
    split; [destruct Hdr as [-> | ->]; [now right | now left] |].
    split; [destruct Hdc as [-> | ->]; [now right | now left] |].
    split; lra. }
  apply eq_true_iff_eq. split; apply Hhalf.
Qed.

Lemma neighborhood_In (l : list GridQubit) (q k : GridQubit) :
  In k (neighborhood l q) <->
  In k (first_occurrences l) /\ diagonal q k = true.
Proof.
  unfold neighborhood, diagonal. rewrite in_flat_map, existsb_exists. split.
  - intros (off & Hoff & Hk). apply filter_In in Hk. destruct Hk as [Hk Hat].
    split; [exact Hk |]. now exists off.
  - intros [Hk (off & Hoff & Hat)]. exists off. split; [exact Hoff |].
    apply filter_In. now split.
Qed.

Lemma present_congr (l : list GridQubit) (q q' : GridQubit) :
  qubit_eqb q q' = true -> present l q = present l q'.
Proof.
  intros Heq. unfold present. induction l as [| k l IH]; simpl.
  - reflexivity.
  - rewrite IH, !(qubit_eqb_sym k). now rewrite (qubit_eqb_congr q q' k Heq).
Qed.

Lemma diagonal_congr_r (q k k' : GridQubit) :
  qubit_eqb k k' = true -> diagonal q k = diagonal q k'.
Proof.
  intros Heq. unfold diagonal. induction offsets as [| off offs IH]; simpl.
  - reflexivity.
  - now rewrite IH, (sits_at_congr _ k k' Heq).
Qed.

(** ** Repetitions in a sequence of qubits *)

Lemma collides_app (l1 l2 : list GridQubit) :
  collides (l1 ++ l2) =
  collides l1 || collides l2 || existsb (fun x => present l2 x) l1.
Proof.
  induction l1 as [| x l1 IH]; simpl.
  - now rewrite orb_false_r.
  - rewrite IH, present_app.
    destruct (present l1 x), (collides l1), (collides l2), (present l2 x);
      simpl; try reflexivity; now rewrite ?orb_true_r.
Qed.

(** The distinct qubits at one position are at most one. *)
Lemma collides_block (p : Pos) (l : list GridQubit) :
  collides (filter (sits_at p) (first_occurrences l)) = false.
Proof.
  pose proof (count_first_occurrences p l) as Hlen.
  destruct (filter (sits_at p) (first_occurrences l)) as [| x [| y t]].
  - reflexivity.
  - reflexivity.
  - simpl in Hlen. destruct (existsb (sits_at p) l); discriminate.
Qed.

Lemma present_block (p : Pos) (ks : list GridQubit) (x : GridQubit) :
  present (filter (sits_at p) ks) x = true -> sits_at p x = true.
Proof.
  intros Hx. apply present_spec in Hx. destruct Hx as (k & Hk & Hkx).
  apply filter_In in Hk. destruct Hk as [_ Hat].
  now rewrite <- (sits_at_congr p k x Hkx).
Qed.

(** A qubit sits at one offset of [q] only. *)
Lemma blocks_apart (q : GridQubit) (o1 o2 : Q * Q) (ks1 ks2 : list GridQubit) :
  ~ (fst o1 == fst o2 /\ snd o1 == snd o2) ->
  existsb (fun x => present (filter (sits_at (shifted q o2)) ks2) x)
          (filter (sits_at (shifted q o1)) ks1) = false.
Proof.
  intros Hapart.
  destruct (existsb _ (filter (sits_at (shifted q o1)) ks1)) eqn:Hex;
    [| reflexivity].
  exfalso. apply Hapart.
  apply existsb_exists in Hex. destruct Hex as (x & Hx & Hpres).
  apply filter_In in Hx. destruct Hx as [_ H1].
  apply present_block in Hpres.
  apply sits_at_spec in H1. apply sits_at_spec in Hpres.
  unfold shifted in H1, Hpres. simpl in H1, Hpres.
  destruct H1 as [Hr1 Hc1]. destruct Hpres as [Hr2 Hc2].
  rewrite Hr1 in Hr2. rewrite Hc1 in Hc2. split; lra.
Qed.

Lemma crosses_app (l1 l2 l3 : list GridQubit) :
  existsb (fun x => present (l2 ++ l3) x) l1 =
  existsb (fun x => present l2 x) l1 || existsb (fun x => present l3 x) l1.
Proof.
  induction l1 as [| x l1 IH]; simpl.
  - reflexivity.
  - rewrite IH, present_app.
    destruct (present l2 x), (present l3 x),
      (existsb (fun x => present l2 x) l1); reflexivity.
Qed.

(** No qubit occurs twice around [q]. *)
Lemma collides_neighborhood (l : list GridQubit) (q : GridQubit) :
  collides (neighborhood l q) = false.
Proof.
  unfold neighborhood, offsets. cbn [flat_map]. rewrite app_nil_r.
  rewrite !collides_app, !crosses_app, !collides_block.
  rewrite !blocks_apart; [reflexivity | | | | | |];
    cbn [fst snd]; intros [Hr Hc]; lra.
Qed.

(** ** More on the neighbour resolver *)

Section Resolved.

Variables (d a : list GridQubit) (out0 out1 : stdout)
          (self : StabilizerCircuits.t).
Hypothesis Hinit : StabilizerCircuits.__init__ d a out0 = (Return self, out1).

Lemma resolved_scan (q : GridQubit) (out : stdout) :
  mem (StabilizerCircuits.qubit_map self) q = true ->
  StabilizerCircuits._get_neighbors self q out =
  (Return (scan (d ++ a) q), out).
Proof.
  exact (get_neighbors_registered d a out0 out1 self Hinit q out).
Qed.

Lemma resolved_neighborhood (q : GridQubit) (out : stdout) :
  mem (StabilizerCircuits.qubit_map self) q = true ->
  sums_exact q = true ->
  StabilizerCircuits._get_neighbors self q out =
  (Return (neighborhood (d ++ a) q), out).
Proof.
  intros Hq Hex. rewrite (resolved_scan q out Hq).
  now rewrite (scan_exact (d ++ a) q Hex).
Qed.

(** A call that returned was made on a registered qubit. *)
Lemma returned_mem (q : GridQubit) (out out' : stdout) (ns : list GridQubit) :
  StabilizerCircuits._get_neighbors self q out = (Return ns, out') ->
  mem (StabilizerCircuits.qubit_map self) q = true /\
  ns = scan (d ++ a) q /\ out' = out.
Proof.
  intros Hrun.
  destruct (mem (StabilizerCircuits.qubit_map self) q) eqn:Hm.
  - rewrite (resolved_scan q out Hm) in Hrun.
    injection Hrun as <- <-. now repeat split.
  - unfold mem in Hm.
    destruct (Dict.get (StabilizerCircuits.qubit_map self) q) eqn:Hget;
      [discriminate |].
    rewrite (get_neighbors_missing self q out Hget) in Hrun. discriminate.
Qed.

Lemma returned_exact (q : GridQubit) (out out' : stdout) (ns : list GridQubit) :
  StabilizerCircuits._get_neighbors self q out = (Return ns, out') ->
  sums_exact q = true ->
  mem (StabilizerCircuits.qubit_map self) q = true /\
  ns = neighborhood (d ++ a) q /\ out' = out.
Proof.
  intros Hrun Hex. destruct (returned_mem q out out' ns Hrun) as (Hq & -> & ->).
  now rewrite (scan_exact (d ++ a) q Hex).
Qed.

Lemma mem_congr (q q' : GridQubit) :
  qubit_eqb q q' = true ->
  mem (StabilizerCircuits.qubit_map self) q =
  mem (StabilizerCircuits.qubit_map self) q'.
Proof.
  intros Heq. rewrite !(init_mem d a out0 out1 self Hinit).
  now apply present_congr.
Qed.

End Resolved.

(** X1. Where the float sums around the queried qubit are exact, the
    resolver returns exactly the distinct qubits of the layout, data or
    ancilla, that sit diagonally next to it: a qubit is in the returned
    list if and only if it is a first occurrence in data ++ ancilla and
    its row and column are those of the queried qubit plus or minus one
    half. *)
Theorem get_neighbors_members_iff
    (d a : list GridQubit) (out0 out1 : stdout) (self : StabilizerCircuits.t)
    (q : GridQubit) (out out' : stdout) (neighbors : list GridQubit) :
  StabilizerCircuits.__init__ d a out0 = (Return self, out1) ->
  StabilizerCircuits._get_neighbors self q out = (Return neighbors, out') ->
  sums_exact q = true ->
  forall k, In k neighbors <->
    In k (first_occurrences (d ++ a)) /\
    exists dr dc, (dr = -0.5 \/ dr = 0.5) /\ (dc = -0.5 \/ dc = 0.5) /\
                  row k == row q + dr /\ col k == col q + dc.
Proof.
  intros Hinit Hrun Hex k.
  destruct (returned_exact d a out0 out1 self Hinit q out out' neighbors
              Hrun Hex) as (_ & -> & _).
  now rewrite neighborhood_In, diagonal_spec.
Qed.

(** X2. Where the float sums around the queried qubit are exact, the
    resolver does not return the queried qubit itself, nor a qubit equal
    to it. *)
Theorem get_neighbors_excludes_self
    (d a : list GridQubit) (out0 out1 : stdout) (self : StabilizerCircuits.t)
    (q : GridQubit) (out out' : stdout) (neighbors : list GridQubit) :
  StabilizerCircuits.__init__ d a out0 = (Return self, out1) ->
  StabilizerCircuits._get_neighbors self q out = (Return neighbors, out') ->
  sums_exact q = true ->
  present neighbors q = false.
Proof.
  intros Hinit Hrun Hex.
  destruct (returned_exact d a out0 out1 self Hinit q out out' neighbors
              Hrun Hex) as (_ & -> & _).
  destruct (present (neighborhood (d ++ a) q) q) eqn:Hp; [| reflexivity].
  apply present_spec in Hp. destruct Hp as (k & Hk & Hkq).
  apply neighborhood_In in Hk. destruct Hk as [_ Hdiag].
  apply diagonal_irrefl in Hdiag. congruence.
Qed.

(** X3. Where the float sums around the queried qubit are exact, the list
    the resolver returns holds no two equal qubits, whatever repetitions
    the sequences given to the constructor contain. *)
Theorem get_neighbors_no_repeats
    (d a : list GridQubit) (out0 out1 : stdout) (self : StabilizerCircuits.t)
    (q : GridQubit) (out out' : stdout) (neighbors : list GridQubit) :
  StabilizerCircuits.__init__ d a out0 = (Return self, out1) ->
  StabilizerCircuits._get_neighbors self q out = (Return neighbors, out') ->
  sums_exact q = true ->
  collides neighbors = false.
Proof.
  intros Hinit Hrun Hex.
  destruct (returned_exact d a out0 out1 self Hinit q out out' neighbors
              Hrun Hex) as (_ & -> & _).
  apply collides_neighborhood.
Qed.

(** X4. Where the float sums are exact, being a neighbour is symmetric:
    when the resolver returns [k] for [q] and the sums around both are
    exact, it returns on [k] as well, and the list it returns for [k]
    holds [q] (the registered qubit equal to [q]). *)
Theorem get_neighbors_symmetric
    (d a : list GridQubit) (out0 out1 : stdout) (self : StabilizerCircuits.t)
    (q k : GridQubit) (out out' : stdout) (neighbors : list GridQubit) :
  StabilizerCircuits.__init__ d a out0 = (Return self, out1) ->
  StabilizerCircuits._get_neighbors self q out = (Return neighbors, out') ->
  In k neighbors ->
  sums_exact q = true ->
  sums_exact k = true ->
  exists back,
    StabilizerCircuits._get_neighbors self k out = (Return back, out) /\
    present back q = true.
Proof.
  intros Hinit Hrun Hk Hex Hexk.
  destruct (returned_exact d a out0 out1 self Hinit q out out' neighbors
              Hrun Hex) as (Hq & -> & _).
  apply neighborhood_In in Hk. destruct Hk as [Hk Hdiag].
  exists (neighborhood (d ++ a) k). split.
  - apply (resolved_neighborhood d a out0 out1 self Hinit); [| exact Hexk].
    apply (init_mem_In d a out0 out1 self Hinit).
    now apply In_first_occurrences.
  - rewrite (init_mem d a out0 out1 self Hinit) in Hq.
    rewrite <- present_first_occurrences in Hq.
    apply present_spec in Hq. destruct Hq as (q' & Hq' & Heq).
    apply present_spec. exists q'. split; [| exact Heq].
    apply neighborhood_In. split; [exact Hq' |].
    now rewrite (diagonal_congr_r k q' q Heq), diagonal_sym.
Qed.

(** X5. The resolver looks a qubit up by its coordinates, not by the
    object: on a registered qubit, a query with any equal qubit (say the
    one built from [0.0] where the layout used [0]) returns the same
    list. *)
Theorem get_neighbors_by_coordinates
    (d a : list GridQubit) (out0 out1 : stdout) (self : StabilizerCircuits.t)
    (q q' : GridQubit) (out : stdout) :
  StabilizerCircuits.__init__ d a out0 = (Return self, out1) ->
  mem (StabilizerCircuits.qubit_map self) q = true ->
  qubit_eqb q q' = true ->
  StabilizerCircuits._get_neighbors self q' out =
  StabilizerCircuits._get_neighbors self q out.
Proof.
  intros Hinit Hq Heq.
  rewrite (resolved_scan d a out0 out1 self Hinit q out Hq).
  rewrite (resolved_scan d a out0 out1 self Hinit q' out).
  - now rewrite (scan_congr _ q q' Heq).
  - now rewrite <- (mem_congr d a out0 out1 self Hinit q q' Heq).
Qed.

(** X6. Where the float sums around the queried qubit are exact, the
    resolver returns as many qubits as there are diagonal positions
    around it that hold a qubit of the layout, data or ancilla; so never
    more than four, and none exactly when no qubit of the layout is
    diagonal to it. *)
Theorem get_neighbors_size
    (d a : list GridQubit) (out0 out1 : stdout) (self : StabilizerCircuits.t)
    (q : GridQubit) (out out' : stdout) (neighbors : list GridQubit) :
  StabilizerCircuits.__init__ d a out0 = (Return self, out1) ->
  StabilizerCircuits._get_neighbors self q out = (Return neighbors, out') ->
  sums_exact q = true ->
  List.length neighbors = occupied_around (d ++ a) q /\
  (List.length neighbors <= 4)%nat /\
  (neighbors = [] <-> forall k, In k (d ++ a) -> diagonal q k = false).
Proof.
  intros Hinit Hrun Hex.
  destruct (returned_exact d a out0 out1 self Hinit q out out' neighbors
              Hrun Hex) as (Hq & Hns & _).
  destruct (get_neighbors_interior d a out0 out1 self Hinit q out Hq Hex)
    as (ns & Hns' & Hle & _).
  destruct (get_neighbors_count d a out0 out1 self Hinit q out Hq Hex)
    as (ns2 & Hns2 & Hcount).
  rewrite (resolved_neighborhood d a out0 out1 self Hinit q out Hq Hex)
    in Hns', Hns2.
  injection Hns' as <-. injection Hns2 as <-. subst neighbors.
  split; [exact Hcount | split; [exact Hle |]]. split.
  - intros Hnil k Hk. destruct (diagonal q k) eqn:Hdiag; [| reflexivity].
    assert (Hpres : present (first_occurrences (d ++ a)) k = true).
    { rewrite present_first_occurrences. apply present_spec.
      exists k. split; [exact Hk | apply qubit_eqb_refl]. }
    apply present_spec in Hpres. destruct Hpres as (k' & Hk' & Heq).
    assert (Hin : In k' (neighborhood (d ++ a) q)).
    { apply neighborhood_In. split; [exact Hk' |].
      now rewrite (diagonal_congr_r q k' k Heq). }
    rewrite Hnil in Hin. destruct Hin.
  - intros Hnone. destruct (neighborhood (d ++ a) q) as [| k ns] eqn:Hnb;
      [reflexivity |].
    assert (Hin : In k (neighborhood (d ++ a) q)) by (rewrite Hnb; now left).
    apply neighborhood_In in Hin. destruct Hin as [Hk Hdiag].
    rewrite (Hnone k (In_first_occurrences _ _ Hk)) in Hdiag. discriminate.
Qed.

(** ** The coordinate mapping *)

Lemma setitem_fresh (m : Dict.t) (k : GridQubit) (v : Pos) :
  present (Dict.keys m) k = false -> Dict.setitem m k v = m ++ [(k, v)].
Proof.
  induction m as [| [k' v'] m IH]; simpl; intros Hfresh.
  - reflexivity.
  - apply orb_false_elim in Hfresh. destruct Hfresh as [Hk Hm].
    rewrite Hk. now rewrite IH.
Qed.

Lemma fill_fresh (l : list GridQubit) (m : Dict.t) :
  collides l = false ->
  (forall q, In q l -> present (Dict.keys m) q = false) ->
  fold_left (fun m q => Dict.setitem m q (row q, col q)) l m
  = m ++ map (fun q => (q, (row q, col q))) l.
Proof.
  revert m. induction l as [| x l IH]; intros m Hcol Hfresh; simpl.
  - now rewrite app_nil_r.
  - simpl in Hcol. apply orb_false_elim in Hcol. destruct Hcol as [Hx Hl].
    rewrite setitem_fresh by (apply Hfresh; now left).
    rewrite IH.
    + now rewrite <- app_assoc.
    + exact Hl.
    + intros q Hq. unfold Dict.keys. rewrite map_app.
      fold (Dict.keys m). rewrite present_app, (Hfresh q (or_intror Hq)).
      simpl. rewrite orb_false_r.
      destruct (qubit_eqb x q) eqn:Hxq; [| reflexivity].
      assert (Hpres : present l x = true).
      { apply present_spec. exists q. split; [exact Hq |].
        now rewrite qubit_eqb_sym. }
      congruence.
Qed.

(** X7. Looking a qubit of the layout up in the mapping the constructor
    built returns that qubit's own row and column, also when the sequences
    repeat it or hold an equal qubit before it. *)
Theorem qubit_map_lookup
    (d a : list GridQubit) (out0 out1 : stdout) (self : StabilizerCircuits.t)
    (q : GridQubit) (out : stdout) :
  StabilizerCircuits.__init__ d a out0 = (Return self, out1) ->
  present (d ++ a) q = true ->
  exists r c,
    Dict.getitem (StabilizerCircuits.qubit_map self) q out = (Return (r, c), out) /\
    r == row q /\ c == col q.
Proof.
  intros Hinit Hq.
  rewrite <- (init_mem d a out0 out1 self Hinit) in Hq. unfold mem in Hq.
  unfold Dict.getitem.
  destruct (Dict.get (StabilizerCircuits.qubit_map self) q) as [[r c] |] eqn:Hget;
    [| discriminate].
  exists r, c. split; [reflexivity |].
  pose proof (get_coherent _ _ _ (init_coherent d a out0 out1 self Hinit) Hget)
    as Hrc.
  apply pos_eqb_spec in Hrc. exact Hrc.
Qed.

(** X8. For a layout without colliding coordinates the mapping lists the
    qubits exactly as given, the data qubits first and the ancillas after
    them, each with its own coordinates; so the resolver scans them in
    that order. *)
Theorem qubit_map_of_distinct_layout
    (d a : list GridQubit) (out0 out1 : stdout) (self : StabilizerCircuits.t) :
  StabilizerCircuits.__init__ d a out0 = (Return self, out1) ->
  collides (d ++ a) = false ->
  Dict.items (StabilizerCircuits.qubit_map self) =
    map (fun q => (q, (row q, col q))) (d ++ a) /\
  Dict.keys (StabilizerCircuits.qubit_map self) = d ++ a.
Proof.
  intros Hinit Hcol.
  destruct (init_fields d a out0 out1 self Hinit) as (_ & _ & Hmap).
  assert (Hitems : StabilizerCircuits.qubit_map self =
                   map (fun q => (q, (row q, col q))) (d ++ a)).
  { rewrite Hmap. now rewrite (fill_fresh (d ++ a) Dict.empty Hcol). }
  split; [exact Hitems |].
  rewrite Hitems. unfold Dict.keys. rewrite map_map. simpl. apply map_id.
Qed.

(** ** The stabilizer cycle of any object *)

Lemma get_neighbors_any (self : StabilizerCircuits.t) (q : GridQubit)
    (out : stdout) :
  StabilizerCircuits._get_neighbors self q out =
  if mem (StabilizerCircuits.qubit_map self) q
  then (Return (found self q), out)
  else (Raise (KeyError q), out).
Proof.
  unfold mem, found.
  destruct (Dict.get (StabilizerCircuits.qubit_map self) q) as [[r c] |] eqn:Hget.
  - exact (get_neighbors_found self q r c out Hget).
  - exact (get_neighbors_missing self q out Hget).
Qed.

(** One pass stops at the first ancilla without an entry, and otherwise
    appends the gates of every ancilla. *)
Lemma cnot_pass_any (self : StabilizerCircuits.t)
    (g : GridQubit -> GridQubit -> Operation) (l : list GridQubit)
    (circuit : Circuit.t) (out : stdout) :
  for_ l circuit (fun ancilla circuit =>
    neighbors <- StabilizerCircuits._get_neighbors self ancilla ;;
    ret (Circuit.append circuit (map (g ancilla) neighbors))) out
  = match find (fun q => negb (mem (StabilizerCircuits.qubit_map self) q)) l with
    | Some q => (Raise (KeyError q), out)
    | None =>
        (Return (circuit ++ flat_map (fun q => map (g q) (found self q)) l), out)
    end.
Proof.
  revert circuit. induction l as [| q l IH]; intros circuit; simpl.
  - unfold ret. now rewrite app_nil_r.
  - unfold bind at 1. unfold bind at 1. rewrite get_neighbors_any.
    destruct (mem (StabilizerCircuits.qubit_map self) q); simpl.
    + unfold ret at 1. rewrite IH.
      destruct (find _ l); [reflexivity |].
      unfold Circuit.append. now rewrite <- app_assoc.
    + reflexivity.
Qed.

Lemma cycle_outcome (self : StabilizerCircuits.t) (out : stdout) :
  StabilizerCircuits.create_stabilizer_cycle self out =
  match first_unregistered self with
  | Some q => (Raise (KeyError q), out)
  | None =>
      (Return
         (map H (StabilizerCircuits.ancilla_qubits self)
          ++ flat_map (fun q => map (fun data => CNOT q data) (found self q))
                      (StabilizerCircuits.ancilla_qubits self)
          ++ map H (StabilizerCircuits.ancilla_qubits self)
          ++ flat_map (fun q => map (fun data => CNOT data q) (found self q))
                      (StabilizerCircuits.ancilla_qubits self)
          ++ [measure (StabilizerCircuits.ancilla_qubits self) "syndrome"]),
       out ++ ["[Stabilizers] Created one full stabilizer measurement cycle circuit."%string])
  end.
Proof.
  unfold StabilizerCircuits.create_stabilizer_cycle, first_unregistered.
  unfold bind at 1.
  rewrite (cnot_pass_any self (fun q data => CNOT q data)).
  destruct (find _ (StabilizerCircuits.ancilla_qubits self)) eqn:Hfind;
    [reflexivity |].
  unfold bind at 1.
  rewrite (cnot_pass_any self (fun q data => CNOT data q)), Hfind.
  unfold bind, print, ret, Circuit.append, Circuit.new. simpl app at 1.
  now rewrite <- !app_assoc.
Qed.


(** ** The stabilizer cycle of a constructed object *)

Lemma found_scan
    (d a : list GridQubit) (out0 out1 : stdout) (self : StabilizerCircuits.t)
    (q : GridQubit) :
  StabilizerCircuits.__init__ d a out0 = (Return self, out1) ->
  mem (StabilizerCircuits.qubit_map self) q = true ->
  found self q = scan (d ++ a) q.
Proof.
  intros Hinit Hq.
  pose proof (get_neighbors_any self q []) as Hany. rewrite Hq in Hany.
  rewrite (resolved_scan d a out0 out1 self Hinit q [] Hq) in Hany.
  now injection Hany as <-.
Qed.

(** The circuit of a constructed object, in terms of the layout. *)
Lemma constructed_cycle
    (d a : list GridQubit) (out0 out1 : stdout) (self : StabilizerCircuits.t)
    (out out' : stdout) (circuit : Circuit.t) :
  StabilizerCircuits.__init__ d a out0 = (Return self, out1) ->
  StabilizerCircuits.create_stabilizer_cycle self out = (Return circuit, out') ->
  circuit =
    map H a
    ++ flat_map (fun q => map (fun data => CNOT q data) (scan (d ++ a) q)) a
    ++ map H a
    ++ flat_map (fun q => map (fun data => CNOT data q) (scan (d ++ a) q)) a
    ++ [measure a "syndrome"].
Proof.
  intros Hinit Hrun. rewrite cycle_outcome in Hrun.
  destruct (first_unregistered self); [discriminate |].
  injection Hrun as <- _.
  destruct (init_fields d a out0 out1 self Hinit) as (_ & -> & _).
  assert (Hfound : forall q, In q a -> found self q = scan (d ++ a) q).
  { intros q Hq. apply (found_scan d a out0 out1 self q Hinit).
    apply (init_mem_In d a out0 out1 self Hinit). apply in_or_app. now right. }
  rewrite (flat_map_agree
             (fun q => map (fun data => CNOT q data) (found self q))
             (fun q => map (fun data => CNOT q data) (scan (d ++ a) q)) a)
    by (intros q Hq; now rewrite (Hfound q Hq)).
  rewrite (flat_map_agree
             (fun q => map (fun data => CNOT data q) (found self q))
             (fun q => map (fun data => CNOT data q) (scan (d ++ a) q)) a)
    by (intros q Hq; now rewrite (Hfound q Hq)).
  reflexivity.
Qed.

Lemma scan_In (l : list GridQubit) (q k : GridQubit) :
  In k (scan l q) <-> In k (first_occurrences l) /\ reaches q k = true.
Proof.
  unfold scan, reaches. rewrite in_flat_map, existsb_exists. split.
  - intros (off & Hoff & Hk). apply filter_In in Hk. destruct Hk as [Hk Hat].
    split; [exact Hk |]. now exists off.
  - intros [Hk (off & Hoff & Hat)]. exists off. split; [exact Hoff |].
    apply filter_In. now split.
Qed.

Lemma reaches_congr_r (q k k' : GridQubit) :
  qubit_eqb k k' = true -> reaches q k = reaches q k'.
Proof.
  intros Heq. unfold reaches. induction offsets as [| off offs IH]; simpl.
  - reflexivity.
  - now rewrite IH, (sits_at_congr _ k k' Heq).
Qed.

(** Where the sums around [q] are exact the resolver reaches the diagonal
    qubits and no others. *)
Lemma reaches_exact (q k : GridQubit) :
  sums_exact q = true -> reaches q k = diagonal q k.
Proof.
  intros Hex. unfold reaches, diagonal, sums_exact in *.
  induction offsets as [| off offs IH]; simpl in *.
  - reflexivity.
  - apply andb_true_iff in Hex. destruct Hex as [Hoff Hrest].
    rewrite (IH Hrest). unfold sits_at at 1.
    now rewrite (pos_eqb_congr_r _ _ _ Hoff).
Qed.

(** Each computed position holds at most one distinct qubit. *)
Lemma length_scan (l : list GridQubit) (q : GridQubit) :
  (List.length (scan l q) <= 4)%nat.
Proof.
  unfold scan, offsets. cbn [flat_map].
  rewrite !length_app, !count_first_occurrences. simpl.
  repeat match goal with
         | |- context [existsb ?f ?ks] => destruct (existsb f ks)
         end; lia.
Qed.

Lemma list_sum_bound {X} (f : X -> nat) (b : nat) (l : list X) :
  (forall x, (f x <= b)%nat) -> (list_sum (map f l) <= b * List.length l)%nat.
Proof.
  intros Hb. induction l as [| x l IH]; simpl.
  - lia.
  - specialize (Hb x). lia.
Qed.

(** Where a controlled gate can stand in the circuit. *)
Lemma In_controlled_pass (nb : GridQubit -> list GridQubit)
    (l : list GridQubit) (x y : GridQubit) :
  (In (CNOT x y) (flat_map (fun q => map (fun data => CNOT q data) (nb q)) l)
   <-> In x l /\ In y (nb x)) /\
  (In (CNOT x y) (flat_map (fun q => map (fun data => CNOT data q) (nb q)) l)
   <-> In y l /\ In x (nb y)).
Proof.
  split; rewrite in_flat_map; split.
  - intros (q & Hq & Hop). apply in_map_iff in Hop.
    destruct Hop as (k & Heq & Hk). injection Heq as -> ->. now split.
  - intros [Hx Hy]. exists x. split; [exact Hx |].
    apply in_map_iff. now exists y.
  - intros (q & Hq & Hop). apply in_map_iff in Hop.
    destruct Hop as (k & Heq & Hk). injection Heq as -> ->. now split.
  - intros [Hy Hx]. exists y. split; [exact Hy |].
    apply in_map_iff. now exists x.
Qed.

Lemma In_cycle_controlled (nb : GridQubit -> list GridQubit)
    (a : list GridQubit) (x y : GridQubit) :
  In (CNOT x y)
     (map H a
      ++ flat_map (fun q => map (fun data => CNOT q data) (nb q)) a
      ++ map H a
      ++ flat_map (fun q => map (fun data => CNOT data q) (nb q)) a
      ++ [measure a "syndrome"])
  <-> (In x a /\ In y (nb x)) \/ (In y a /\ In x (nb y)).
Proof.
  destruct (In_controlled_pass nb a x y) as [Hone Htwo].
  rewrite !in_app_iff, Hone, Htwo, !in_map_iff. simpl. split.
  - intros [(q & Heq & _) | [Hp | [(q & Heq & _) | [Hp | [Heq | []]]]]];
      try discriminate; tauto.
  - tauto.
Qed.

(** X10. The cycle of a layout with A ancillas has an odd number of
    operations, at least 2A + 1 (no ancilla has a neighbour) and at most
    10A + 1 (every ancilla has four). *)
Theorem stabilizer_cycle_size_bounds
    (d a : list GridQubit) (out0 out1 : stdout) (self : StabilizerCircuits.t)
    (out out' : stdout) (circuit : Circuit.t) :
  StabilizerCircuits.__init__ d a out0 = (Return self, out1) ->
  StabilizerCircuits.create_stabilizer_cycle self out = (Return circuit, out') ->
  exists n : nat,
    List.length circuit = (2 * n + 1)%nat /\
    (List.length a <= n <= 5 * List.length a)%nat.
Proof.
  intros Hinit Hrun.
  rewrite (constructed_cycle d a out0 out1 self out out' circuit Hinit Hrun).
  exists (List.length a
          + list_sum (map (fun q => List.length (scan (d ++ a) q)) a))%nat.
  rewrite !length_app, !length_map.
  rewrite (length_gates (fun q data => CNOT q data)).
  rewrite (length_gates (fun q data => CNOT data q)). simpl.
  pose proof (list_sum_bound (fun q => List.length (scan (d ++ a) q))
                4 a (length_scan (d ++ a))) as Hsum.
  lia.
Qed.

(** X11. The cycle acts on qubits of the layout only, and each of its
    controlled gates joins an ancilla of the sequence with a qubit at one
    of the four positions computed around that ancilla.  Where the float
    sums around every ancilla are exact, that qubit is diagonally next to
    the ancilla and no controlled gate has equal control and target. *)
Theorem stabilizer_cycle_gates_sound
    (d a : list GridQubit) (out0 out1 : stdout) (self : StabilizerCircuits.t)
    (out out' : stdout) (circuit : Circuit.t) :
  StabilizerCircuits.__init__ d a out0 = (Return self, out1) ->
  StabilizerCircuits.create_stabilizer_cycle self out = (Return circuit, out') ->
  (forall op k, In op circuit -> In k (qubits_of op) -> In k (d ++ a)) /\
  (forall x y, In (CNOT x y) circuit ->
     (In x a /\ reaches x y = true) \/ (In y a /\ reaches y x = true)) /\
  ((forall x, In x a -> sums_exact x = true) ->
   forall x y, In (CNOT x y) circuit ->
     qubit_eqb x y = false /\ diagonal x y = true /\ (In x a \/ In y a)).
Proof.
  intros Hinit Hrun.
  rewrite (constructed_cycle d a out0 out1 self out out' circuit Hinit Hrun).
  assert (Hgate : forall x y,
            In (CNOT x y)
               (map H a
                ++ flat_map (fun q => map (fun data => CNOT q data)
                                          (scan (d ++ a) q)) a
                ++ map H a
                ++ flat_map (fun q => map (fun data => CNOT data q)
                                          (scan (d ++ a) q)) a
                ++ [measure a "syndrome"]) ->
            (In x a /\ In y (first_occurrences (d ++ a)) /\ reaches x y = true)
            \/ (In y a /\ In x (first_occurrences (d ++ a)) /\ reaches y x = true)).
  { intros x y Hop. apply In_cycle_controlled in Hop.
    rewrite !scan_In in Hop. tauto. }
  split; [| split].
  - intros op k Hop Hk. destruct op as [q | x y | q | qs key].
    + apply in_app_iff in Hop. rewrite !in_app_iff in Hop.
      assert (Hq : In q a).
      { destruct Hop as [Hop | [Hop | [Hop | [Hop | [Hop | []]]]]];
          try discriminate;
          try (apply in_map_iff in Hop; destruct Hop as (q' & Heq & Hq');
               now injection Heq as <-);
          apply in_flat_map in Hop; destruct Hop as (q' & _ & Hop);
          apply in_map_iff in Hop; destruct Hop as (k' & Heq & _);
          discriminate. }
      destruct Hk as [<- | []]. apply in_or_app. now right.
    + destruct (Hgate x y Hop) as [(Hx & Hy & _) | (Hy & Hx & _)];
        destruct Hk as [<- | [<- | []]];
        try (apply in_or_app; now right);
        now apply In_first_occurrences.
    + exfalso. rewrite !in_app_iff in Hop.
      destruct Hop as [Hop | [Hop | [Hop | [Hop | [Hop | []]]]]];
        try discriminate;
        try (apply in_map_iff in Hop; destruct Hop as (q' & Heq & _);
             discriminate);
        apply in_flat_map in Hop; destruct Hop as (q' & _ & Hop);
        apply in_map_iff in Hop; destruct Hop as (k' & Heq & _);
        discriminate.
    + assert (Hqs : qs = a).
      { rewrite !in_app_iff in Hop.
        destruct Hop as [Hop | [Hop | [Hop | [Hop | [Hop | []]]]]];
          try (now injection Hop as <- _);
          try (apply in_map_iff in Hop; destruct Hop as (q' & Heq & _);
               discriminate);
          apply in_flat_map in Hop; destruct Hop as (q' & _ & Hop);
          apply in_map_iff in Hop; destruct Hop as (k' & Heq & _);
          discriminate. }
      subst qs. apply in_or_app. now right.
  - intros x y Hop. destruct (Hgate x y Hop) as [(Hx & _ & Hr) | (Hy & _ & Hr)];
      [left | right]; now split.
  - intros Hex x y Hop.
    destruct (Hgate x y Hop) as [(Hx & _ & Hr) | (Hy & _ & Hr)].
    + rewrite (reaches_exact x y (Hex x Hx)) in Hr.
      split; [| split; [exact Hr | now left]].
      rewrite qubit_eqb_sym. now apply diagonal_irrefl.
    + rewrite (reaches_exact y x (Hex y Hy)) in Hr.
      split; [| split; [now rewrite diagonal_sym | now right]].
      now apply diagonal_irrefl.
Qed.

(** X12. For every ancilla of the sequence and every qubit of the layout
    at one of the four positions computed around it, the cycle holds the
    controlled gate from the ancilla to that qubit and the one from that
    qubit to the ancilla; every controlled gate of the cycle comes with
    its mirror image; and where the float sums around an ancilla are
    exact, every qubit of the layout diagonally next to it gets both
    gates. *)
Theorem stabilizer_cycle_gates_paired
    (d a : list GridQubit) (out0 out1 : stdout) (self : StabilizerCircuits.t)
    (out out' : stdout) (circuit : Circuit.t) :
  StabilizerCircuits.__init__ d a out0 = (Return self, out1) ->
  StabilizerCircuits.create_stabilizer_cycle self out = (Return circuit, out') ->
  (forall x k, In x a -> In k (d ++ a) -> reaches x k = true ->
     exists k', qubit_eqb k' k = true /\
                In (CNOT x k') circuit /\ In (CNOT k' x) circuit) /\
  (forall x y, In (CNOT x y) circuit -> In (CNOT y x) circuit) /\
  (forall x k, In x a -> sums_exact x = true ->
     In k (d ++ a) -> diagonal x k = true ->
     exists k', qubit_eqb k' k = true /\
                In (CNOT x k') circuit /\ In (CNOT k' x) circuit).
Proof.
  intros Hinit Hrun.
  rewrite (constructed_cycle d a out0 out1 self out out' circuit Hinit Hrun).
  assert (Hreach : forall x k, In x a -> In k (d ++ a) -> reaches x k = true ->
            exists k', qubit_eqb k' k = true /\
              In (CNOT x k')
                 (map H a
                  ++ flat_map (fun q => map (fun data => CNOT q data)
                                            (scan (d ++ a) q)) a
                  ++ map H a
                  ++ flat_map (fun q => map (fun data => CNOT data q)
                                            (scan (d ++ a) q)) a
                  ++ [measure a "syndrome"]) /\
              In (CNOT k' x)
                 (map H a
                  ++ flat_map (fun q => map (fun data => CNOT q data)
                                            (scan (d ++ a) q)) a
                  ++ map H a
                  ++ flat_map (fun q => map (fun data => CNOT data q)
                                            (scan (d ++ a) q)) a
                  ++ [measure a "syndrome"])).
  { intros x k Hx Hk Hr.
    assert (Hpres : present (first_occurrences (d ++ a)) k = true).
    { rewrite present_first_occurrences. apply present_spec.
      exists k. split; [exact Hk | apply qubit_eqb_refl]. }
    apply present_spec in Hpres. destruct Hpres as (k' & Hk' & Heq).
    assert (Hin : In k' (scan (d ++ a) x)).
    { apply scan_In. split; [exact Hk' |].
      now rewrite (reaches_congr_r x k' k Heq). }
    exists k'. split; [exact Heq |].
    split; apply In_cycle_controlled; [left | right]; now split. }
  split; [exact Hreach | split].
  - intros x y Hop. apply In_cycle_controlled.
    apply In_cycle_controlled in Hop. tauto.
  - intros x k Hx Hex Hk Hdiag. apply Hreach; [exact Hx | exact Hk |].
    now rewrite (reaches_exact x k Hex).
Qed.

(** ** The scripts *)

Lemma example_cycle_outcome (out : stdout) :
  StabilizerCircuits.create_stabilizer_cycle example_stabilizers out =
  (Return example_cycle,
   out ++ ["[Stabilizers] Created one full stabilizer measurement cycle circuit."%string]).
Proof.
  rewrite cycle_outcome.
  replace (first_unregistered example_stabilizers) with (@None GridQubit)
    by reflexivity.
  reflexivity.
Qed.

(** X13. Run as a script, error-syndrome-stabilizers.py never raises: it
    prints the constructor's line for 4 data qubits, the line of the cycle,
    the header, the drawing of the 23-operation cycle of the example patch
    and the closing rule, in this order, and nothing else. *)
Theorem stabilizers_main_runs (render : Circuit.t -> string) (out : stdout) :
  stabilizers_main render out =
  (Return tt,
   out ++ ["[Stabilizers] Initialized for a 4 data qubit patch.";
           "[Stabilizers] Created one full stabilizer measurement cycle circuit.";
           newline ++ "--- One Cycle of Stabilizer Measurements ---";
           render example_cycle;
           "--------------------------------------------"]%string) /\
  List.length example_cycle = 23%nat.
Proof.
  split; [| reflexivity].
  unfold stabilizers_main. unfold bind at 1.
  change (StabilizerCircuits.__init__ _ _ out)
    with (Return example_stabilizers,
          out ++ ["[Stabilizers] Initialized for a 4 data qubit patch."%string]).
  cbv iota beta. unfold bind at 1. rewrite example_cycle_outcome.
  unfold bind, print. rewrite <- !app_assoc. reflexivity.
Qed.

(** X14. Run as a script, logical-qubit-encoder.py never raises: it prints
    the constructor's line for 4 data and 3 ancilla qubits, the line of
    the generator, the header, the drawing of the circuit of four resets
    (0,0), (0,1), (1,0), (1,1), the closing rule and the two notes, in
    this order, and nothing else. *)
Theorem encoder_main_runs (render : Circuit.t -> string) (out : stdout) :
  encoder_main render out =
  (Return tt,
   out ++ ["[Encoder] Initialized with 4 data qubits and 3 ancilla qubits.";
           "[Encoder] Created circuit for logical |0> state.";
           newline ++ "--- Logical |0> Preparation Circuit ---";
           render [reset (mkGridQubit 0 0); reset (mkGridQubit 0 1);
                   reset (mkGridQubit 1 0); reset (mkGridQubit 1 1)];
           "--------------------------------------";
           "Note: For the logical |0>, the circuit is trivial (resets).";
           "The complex operations occur during the stabilizer measurements."]%string).
Proof.
  unfold encoder_main, SurfaceCodeEncoder.__init__,
    SurfaceCodeEncoder.create_logical_zero_circuit, bind, print, ret.
  cbn [SurfaceCodeEncoder.data_qubits]. rewrite <- !app_assoc. reflexivity.
Qed.

(** ** The further theorems at the example patch *)

Lemma example_center_neighbors :
  StabilizerCircuits._get_neighbors example_stabilizers (mkGridQubit 0.5 0.5) [] =
  (Return example_corners, []).
Proof. reflexivity. Defined.

Lemma get_neighbors_members_iff_witness :
  StabilizerCircuits.__init__ example_data example_ancillas [] =
    (Return example_stabilizers, example_banner) /\
  StabilizerCircuits._get_neighbors example_stabilizers (mkGridQubit 0.5 0.5) [] =
    (Return example_corners, []) /\
  sums_exact (mkGridQubit 0.5 0.5) = true /\
  (In (mkGridQubit 1 0) example_corners <->
   In (mkGridQubit 1 0) (first_occurrences (example_data ++ example_ancillas)) /\
   exists dr dc, (dr = -0.5 \/ dr = 0.5) /\ (dc = -0.5 \/ dc = 0.5) /\
                 row (mkGridQubit 1 0) == row (mkGridQubit 0.5 0.5) + dr /\
                 col (mkGridQubit 1 0) == col (mkGridQubit 0.5 0.5) + dc).
Proof.
  split; [exact example_stabilizers_init |].
  split; [exact example_center_neighbors |].
  split; [reflexivity |].
  exact (get_neighbors_members_iff _ _ _ _ _ _ _ _ _
           example_stabilizers_init example_center_neighbors eq_refl
           (mkGridQubit 1 0)).
Defined.

Lemma get_neighbors_excludes_self_witness :
  StabilizerCircuits.__init__ example_data example_ancillas [] =
    (Return example_stabilizers, example_banner) /\
  StabilizerCircuits._get_neighbors example_stabilizers (mkGridQubit 0.5 0.5) [] =
    (Return example_corners, []) /\
  sums_exact (mkGridQubit 0.5 0.5) = true /\
  present example_corners (mkGridQubit 0.5 0.5) = false.
Proof.
  split; [exact example_stabilizers_init |].
  split; [exact example_center_neighbors |].
  split; [reflexivity |].
  exact (get_neighbors_excludes_self _ _ _ _ _ _ _ _ _
           example_stabilizers_init example_center_neighbors eq_refl).
Defined.

Lemma get_neighbors_no_repeats_witness :
  StabilizerCircuits.__init__ example_data example_ancillas [] =
    (Return example_stabilizers, example_banner) /\
  StabilizerCircuits._get_neighbors example_stabilizers (mkGridQubit 0.5 0.5) [] =
    (Return example_corners, []) /\
  sums_exact (mkGridQubit 0.5 0.5) = true /\
  collides example_corners = false.
Proof.
  split; [exact example_stabilizers_init |].
  split; [exact example_center_neighbors |].
  split; [reflexivity |].
  exact (get_neighbors_no_repeats _ _ _ _ _ _ _ _ _
           example_stabilizers_init example_center_neighbors eq_refl).
Defined.

Lemma get_neighbors_symmetric_witness :
  StabilizerCircuits.__init__ example_data example_ancillas [] =
    (Return example_stabilizers, example_banner) /\
  StabilizerCircuits._get_neighbors example_stabilizers (mkGridQubit 0.5 0.5) [] =
    (Return example_corners, []) /\
  In (mkGridQubit 1 1) example_corners /\
  sums_exact (mkGridQubit 0.5 0.5) = true /\
  sums_exact (mkGridQubit 1 1) = true /\
  exists back,
    StabilizerCircuits._get_neighbors example_stabilizers (mkGridQubit 1 1) [] =
      (Return back, []) /\
    present back (mkGridQubit 0.5 0.5) = true.
Proof.
  split; [exact example_stabilizers_init |].
  split; [exact example_center_neighbors |].
  assert (Hin : In (mkGridQubit 1 1) example_corners)
    by (right; right; right; left; reflexivity).
  split; [exact Hin |].
  split; [reflexivity |]. split; [reflexivity |].
  exact (get_neighbors_symmetric _ _ _ _ _ _ _ _ _ _
           example_stabilizers_init example_center_neighbors Hin
           eq_refl eq_refl).
Defined.

Lemma get_neighbors_by_coordinates_witness :
  StabilizerCircuits.__init__ example_data example_ancillas [] =
    (Return example_stabilizers, example_banner) /\
  mem (StabilizerCircuits.qubit_map example_stabilizers) (mkGridQubit 0.5 0.5)
    = true /\
  qubit_eqb (mkGridQubit 0.5 0.5) (mkGridQubit (1 # 2) (2 # 4)) = true /\
  StabilizerCircuits._get_neighbors example_stabilizers
    (mkGridQubit (1 # 2) (2 # 4)) [] =
  StabilizerCircuits._get_neighbors example_stabilizers (mkGridQubit 0.5 0.5) [].
Proof.
  split; [exact example_stabilizers_init |].
  split; [reflexivity |]. split; [reflexivity |].
  exact (get_neighbors_by_coordinates _ _ _ _ _ (mkGridQubit 0.5 0.5)
           (mkGridQubit (1 # 2) (2 # 4)) []
           example_stabilizers_init eq_refl eq_refl).
Defined.

Lemma get_neighbors_size_witness :
  StabilizerCircuits.__init__ example_data example_ancillas [] =
    (Return example_stabilizers, example_banner) /\
  StabilizerCircuits._get_neighbors example_stabilizers (mkGridQubit 0.5 0.5) [] =
    (Return example_corners, []) /\
  sums_exact (mkGridQubit 0.5 0.5) = true /\
  List.length example_corners =
    occupied_around (example_data ++ example_ancillas) (mkGridQubit 0.5 0.5) /\
  (List.length example_corners <= 4)%nat.
Proof.
  split; [exact example_stabilizers_init |].
  split; [exact example_center_neighbors |].
  split; [reflexivity |].
  destruct (get_neighbors_size _ _ _ _ _ _ _ _ _
              example_stabilizers_init example_center_neighbors eq_refl)
    as (Hcount & Hle & _).
  split; [exact Hcount | exact Hle].
Defined.

Lemma qubit_map_lookup_witness :
  StabilizerCircuits.__init__ example_data example_ancillas [] =
    (Return example_stabilizers, example_banner) /\
  present (example_data ++ example_ancillas) (mkGridQubit 0.5 1.5) = true /\
  exists r c,
    Dict.getitem (StabilizerCircuits.qubit_map example_stabilizers)
                 (mkGridQubit 0.5 1.5) [] = (Return (r, c), []) /\
    r == 0.5 /\ c == 1.5.
Proof.
  split; [exact example_stabilizers_init |].
  split; [reflexivity |].
  exact (qubit_map_lookup _ _ _ _ _ (mkGridQubit 0.5 1.5) []
           example_stabilizers_init eq_refl).
Defined.

Lemma qubit_map_of_distinct_layout_witness :
  StabilizerCircuits.__init__ example_data example_ancillas [] =
    (Return example_stabilizers, example_banner) /\
  collides (example_data ++ example_ancillas) = false /\
  Dict.keys (StabilizerCircuits.qubit_map example_stabilizers) =
    example_data ++ example_ancillas.
Proof.
  split; [exact example_stabilizers_init |].
  split; [reflexivity |].
  exact (proj2 (qubit_map_of_distinct_layout _ _ _ _ _
                  example_stabilizers_init eq_refl)).
Defined.


Lemma stabilizer_cycle_size_bounds_witness :
  StabilizerCircuits.__init__ example_data example_ancillas [] =
    (Return example_stabilizers, example_banner) /\
  StabilizerCircuits.create_stabilizer_cycle example_stabilizers [] =
    (Return example_cycle,
     ["[Stabilizers] Created one full stabilizer measurement cycle circuit."%string]) /\
  exists n : nat,
    List.length example_cycle = (2 * n + 1)%nat /\ (3 <= n <= 15)%nat.
Proof.
  split; [exact example_stabilizers_init |].
  split; [exact (example_cycle_outcome []) |].
  exact (stabilizer_cycle_size_bounds _ _ _ _ _ _ _ _
           example_stabilizers_init (example_cycle_outcome [])).
Defined.

Lemma stabilizer_cycle_gates_sound_witness :
  StabilizerCircuits.__init__ example_data example_ancillas [] =
    (Return example_stabilizers, example_banner) /\
  StabilizerCircuits.create_stabilizer_cycle example_stabilizers [] =
    (Return example_cycle,
     ["[Stabilizers] Created one full stabilizer measurement cycle circuit."%string]) /\
  (forall x, In x example_ancillas -> sums_exact x = true) /\
  forall x y, In (CNOT x y) example_cycle ->
    qubit_eqb x y = false /\ diagonal x y = true /\
    (In x example_ancillas \/ In y example_ancillas).
Proof.
  split; [exact example_stabilizers_init |].
  split; [exact (example_cycle_outcome []) |].
  assert (Hex : forall x, In x example_ancillas -> sums_exact x = true).
  { intros x [<- | [<- | [<- | []]]]; reflexivity. }
  split; [exact Hex |].
  exact (proj2 (proj2 (stabilizer_cycle_gates_sound _ _ _ _ _ _ _ _
                         example_stabilizers_init (example_cycle_outcome [])))
           Hex).
Defined.

Lemma stabilizer_cycle_gates_paired_witness :
  StabilizerCircuits.__init__ example_data example_ancillas [] =
    (Return example_stabilizers, example_banner) /\
  StabilizerCircuits.create_stabilizer_cycle example_stabilizers [] =
    (Return example_cycle,
     ["[Stabilizers] Created one full stabilizer measurement cycle circuit."%string]) /\
  (forall x y, In (CNOT x y) example_cycle -> In (CNOT y x) example_cycle) /\
  exists k',
    qubit_eqb k' (mkGridQubit 1 1) = true /\
    In (CNOT (mkGridQubit 0.5 1.5) k') example_cycle /\
    In (CNOT k' (mkGridQubit 0.5 1.5)) example_cycle.
Proof.
  split; [exact example_stabilizers_init |].
  split; [exact (example_cycle_outcome []) |].
  destruct (stabilizer_cycle_gates_paired _ _ _ _ _ _ _ _
              example_stabilizers_init (example_cycle_outcome []))
    as (_ & Hmirror & Hdiag).
  split; [exact Hmirror |].
  apply (Hdiag (mkGridQubit 0.5 1.5) (mkGridQubit 1 1)).
  - right; left; reflexivity.
  - reflexivity.
  - right; right; right; left; reflexivity.
  - reflexivity.
Defined.

(** ** Where the float sums are exact *)

(** X15. On the half-integer lattice the float sums of the resolver are
    exact: for a qubit whose row and column are halves of integers of
    magnitude below 2^52 (coordinates below 2^51), each of the eight sums
    [r + dr], [c + dc] is the exact sum, so the four computed positions
    are the four diagonal ones. *)
Theorem sums_exact_on_half_grid (q : GridQubit) (k l : Z) :
  row q == k # 2 -> col q == l # 2 ->
  (Z.abs k < 2 ^ 52)%Z -> (Z.abs l < 2 ^ 52)%Z ->
  sums_exact q = true /\
  forall off, In off offsets ->
    fst (reached q off) == row q + fst off /\
    snd (reached q off) == col q + snd off.
Proof.
  intros Hrow Hcol Hk Hl.
  assert (Hsum : forall off, In off offsets ->
            fst (reached q off) == row q + fst off /\
            snd (reached q off) == col q + snd off).
  { intros off Hoff. apply offsets_half in Hoff.
    destruct Hoff as [Hdr Hdc]. unfold reached. cbn [fst snd]. split.
    - destruct Hdr as [-> | ->].
      + apply (float_add_half _ _ k (-1)); [exact Hrow | reflexivity | lia | lia].
      + apply (float_add_half _ _ k 1); [exact Hrow | reflexivity | lia | lia].
    - destruct Hdc as [-> | ->].
      + apply (float_add_half _ _ l (-1)); [exact Hcol | reflexivity | lia | lia].
      + apply (float_add_half _ _ l 1); [exact Hcol | reflexivity | lia | lia]. }
  split; [| exact Hsum].
  unfold sums_exact. apply forallb_forall. intros off Hoff.
  apply pos_eqb_spec. exact (Hsum off Hoff).
Qed.

Lemma sums_exact_on_half_grid_witness :
  row (mkGridQubit 0.5 1.5) == 1 # 2 /\
  col (mkGridQubit 0.5 1.5) == 3 # 2 /\
  (Z.abs 1 < 2 ^ 52)%Z /\ (Z.abs 3 < 2 ^ 52)%Z /\
  sums_exact (mkGridQubit 0.5 1.5) = true.
Proof.
  assert (Hrow : row (mkGridQubit 0.5 1.5) == 1 # 2) by reflexivity.
  assert (Hcol : col (mkGridQubit 0.5 1.5) == 3 # 2) by reflexivity.
  assert (Hk : (Z.abs 1 < 2 ^ 52)%Z) by reflexivity.
  assert (Hl : (Z.abs 3 < 2 ^ 52)%Z) by reflexivity.
  split; [exact Hrow |]. split; [exact Hcol |].
  split; [exact Hk |]. split; [exact Hl |].
  exact (proj1 (sums_exact_on_half_grid _ 1 3 Hrow Hcol Hk Hl)).
Defined.
